(** * Verification of the exec hook-point catalog and of the NTP check

    Two Go packages are embedded here:

    - package [probe]: the static catalog [ExecHookPoints] / [ExecTables]
      of kernel hook points for process execution, fork and exit;
    - package [net]: the NTP check, [ntpConfig.parse],
      [getCloudProviderNTPHosts], [NTPCheck.Configure], [NTPCheck.Run]
      and [NTPCheck.queryOffset].

    Go values are modelled as follows.  A [string] is a Rocq [string]; a
    slice is an [option (list A)], [None] being the nil slice; a
    [map[string]V] is a [gmap string V]; an [int] is a [Z]; a function
    returning [(T, error)] returns a [result T]; a method with a pointer
    receiver takes the receiver and returns the updated one. *)

From Stdlib Require Import ZArith Lia PrimFloat.
From stdpp Require Import base strings list gmap sorting.

Local Open Scope Z_scope.

(* ================================================================== *)
(** * Package [probe] *)
(* ================================================================== *)

Module probe.

(** [eprobe.KProbe]: its declaration lives in another package; the
    catalog only sets the two section names below, and a field that a
    composite literal leaves out holds the zero value, the empty
    string. *)
Record KProbe := mkKProbe {
  EntryFunc : string;
  ExitFunc : string
}.

(** Modelled from the spec: the type declaration of [Capabilities] is
    missing; the spec describes it as a set of named capability
    tokens.  [Capabilities{}] is the empty set. *)
Abbreviation Capabilities := (gset string).

(** Modelled from the spec: the type declaration of [KTable] is
    missing; a table is identified by its name. *)
Record KTable := mkKTable {
  TableName : string
}.

(** [HookPoint]: the fields written by the catalog, in the order of the
    literals.  [Optional] is [false] when a literal leaves it out.

    Modelled from the spec: the declaration of [HookPoint] is missing;
    [Tables] is the [tables[]] field of the declaration format, which no
    literal of the catalog sets, so that it holds the nil slice. *)
Record HookPoint := mkHookPoint {
  Name : string;
  KProbes : list KProbe;
  EventTypes : gmap string Capabilities;
  Optional : bool;
  Tables : list string
}.

(** [var ExecTables = []KTable{}] *)
Definition ExecTables : list KTable := [].

Section Catalog.

(** [getSyscallFnName] is defined elsewhere in the package: it maps a
    syscall name to the name of the kernel function implementing it,
    which depends on the running kernel. *)
Variable getSyscallFnName : string → string.

(** [var ExecHookPoints = []*HookPoint{ ... }] *)
Definition ExecHookPoints : list HookPoint :=
    [ {| Name := "sys_execve";
         KProbes := [ {| EntryFunc := "kprobe/" +:+ getSyscallFnName "execve";
                         ExitFunc := "" |} ];
         EventTypes := {[ "*" := ∅ ]};
         Optional := false;
         Tables := [] |};
      {| Name := "sys_execveat";
         KProbes := [ {| EntryFunc := "kprobe/" +:+ getSyscallFnName "execveat";
                         ExitFunc := "" |} ];
         EventTypes := {[ "*" := ∅ ]};
         Optional := true;
         Tables := [] |};
      {| Name := "do_fork";
         KProbes := [ {| EntryFunc := ""; ExitFunc := "kretprobe/_do_fork" |};
                      {| EntryFunc := ""; ExitFunc := "kretprobe/do_fork" |} ];
         EventTypes := {[ "*" := ∅ ]};
         Optional := false;
         Tables := [] |};
      {| Name := "do_exit";
         KProbes := [ {| EntryFunc := ""; ExitFunc := "kprobe/do_exit" |} ];
         EventTypes := {[ "*" := ∅ ]};
         Optional := false;
         Tables := [] |} ].

End Catalog.

(** ** Reading a probe specification *)

Inductive AttachKind := entry | exit.

(** The attachments a probe specification asks for: one per section
    name that is set. *)
Definition attachKinds (k : KProbe) : list AttachKind :=
  (if decide (EntryFunc k = "") then [] else [entry]) ++
  (if decide (ExitFunc k = "") then [] else [exit]).

(** The section names of the catalog follow one convention:
    ["kprobe/<symbol>"] attaches at the entry of the kernel function
    [<symbol>], ["kretprobe/<symbol>"] at its return. *)
Definition kprobeSection (symbol : string) : string := "kprobe/" +:+ symbol.
Definition kretprobeSection (symbol : string) : string := "kretprobe/" +:+ symbol.

(** [get(name)] of the hook point registry: the first hook point
    declared under that name. *)
Definition get (catalog : list HookPoint) (name : string) : option HookPoint :=
  snd <$> list_find (λ hp, Name hp = name) catalog.

(** ** Capability model *)

(** Modelled from the spec: [requiredCapabilities] is not part of the
    sources at hand.  The entry of the event type itself when there is
    one, the wildcard entry otherwise: a wildcard entry applies to every
    event type the hook point can emit. *)
Definition requiredCapabilities (hp : HookPoint) (eventType : string)
  : option Capabilities :=
  match EventTypes hp !! eventType with
  | Some required => Some required
  | None => EventTypes hp !! "*"
  end.

(** Modelled from the spec: [consumerSatisfies] is not part of the
    sources at hand.  True iff [required] is a subset of the consumer's
    capabilities. *)
Definition consumerSatisfies (consumerCapabilities required : Capabilities) : bool :=
  bool_decide (required ⊆ consumerCapabilities).

End probe.

(* ================================================================== *)
(** * Package [net]: the NTP check *)
(* ================================================================== *)

Module net.

(** ** Go values *)

(** An [error] value is represented by its message. *)
Definition error := string.

(** The pair [(T, error)] a fallible Go function returns. *)
Inductive result (T : Type) :=
| Ok (v : T)
| Err (e : error).
Arguments Ok {T} v.
Arguments Err {T} e.

(** A slice: [None] is [nil], [Some l] holds the elements [l]. *)
Definition slice (T : Type) := option (list T).

Definition len {T} (s : slice T) : Z := Z.of_nat (length (default [] s)).

(** The elements a [range] loop visits. *)
Definition elems {T} (s : slice T) : list T := default [] s.

(** Signed 64-bit wrap-around, for [int] and [time.Duration]. *)
Definition wrap64 (z : Z) : Z := (z + 2 ^ 63) mod 2 ^ 64 - 2 ^ 63.

(** ** Configuration *)

Definition awsNTPHosts : slice string := Some ["169.254.169.123"].
Definition gcpNTPHosts : slice string := Some ["metadata.google.internal"].
Definition azureNTPHosts : slice string := Some ["time.windows.com"].
Definition alibabaNTPHosts : slice string := Some [
  "ntp.cloud.aliyuncs.com"; "ntp1.cloud.aliyuncs.com"; "ntp2.cloud.aliyuncs.com"; "ntp3.cloud.aliyuncs.com";
  "ntp4.cloud.aliyuncs.com"; "ntp5.cloud.aliyuncs.com"; "ntp6.cloud.aliyuncs.com"; "ntp7.cloud.aliyuncs.com";
  "ntp8.cloud.aliyuncs.com"; "ntp9.cloud.aliyuncs.com"; "ntp10.cloud.aliyuncs.com"; "ntp11.cloud.aliyuncs.com";
  "ntp12.cloud.aliyuncs.com" ].
Definition tencentNTPHosts : slice string := Some ["ntpupdate.tencentyun.com"].
Definition googleNTPHosts : slice string := Some [
  "0.datadog.pool.ntp.org"; "1.datadog.pool.ntp.org"; "2.datadog.pool.ntp.org"; "3.datadog.pool.ntp.org" ].

Record ntpInstanceConfig := mkInstance {
  OffsetThreshold : Z;
  Host : string;
  Hosts : slice string;
  Port : Z;
  Timeout : Z;
  Version : Z;
  UseLocalDefinedServers : bool
}.

(** [type ntpInitConfig struct{}] *)
Inductive ntpInitConfig := mkInitConfig.

Record ntpConfig := mkConfig {
  instance : ntpInstanceConfig;
  initConf : ntpInitConfig
}.

(** Field assignments [c.instance.F = v]. *)
Definition setHosts (v : slice string) (i : ntpInstanceConfig) : ntpInstanceConfig :=
  mkInstance (OffsetThreshold i) (Host i) v (Port i) (Timeout i) (Version i)
             (UseLocalDefinedServers i).
Definition setPort (v : Z) (i : ntpInstanceConfig) : ntpInstanceConfig :=
  mkInstance (OffsetThreshold i) (Host i) (Hosts i) v (Timeout i) (Version i)
             (UseLocalDefinedServers i).
Definition setVersion (v : Z) (i : ntpInstanceConfig) : ntpInstanceConfig :=
  mkInstance (OffsetThreshold i) (Host i) (Hosts i) (Port i) (Timeout i) v
             (UseLocalDefinedServers i).
Definition setTimeout (v : Z) (i : ntpInstanceConfig) : ntpInstanceConfig :=
  mkInstance (OffsetThreshold i) (Host i) (Hosts i) (Port i) v (Version i)
             (UseLocalDefinedServers i).
Definition setOffsetThreshold (v : Z) (i : ntpInstanceConfig) : ntpInstanceConfig :=
  mkInstance v (Host i) (Hosts i) (Port i) (Timeout i) (Version i)
             (UseLocalDefinedServers i).

(** What the cloud-provider detection helpers [ec2.IsRunningOn()], ...
    answer on this host. *)
Record CloudEnv := mkCloudEnv {
  ec2 : bool; ecs : bool; gce : bool; azure : bool; alibaba : bool; tencent : bool
}.

(** [getCloudProviderNTPHosts] (the log lines are left out). *)
Definition getCloudProviderNTPHosts (env : CloudEnv) : slice string :=
  if ec2 env || ecs env then awsNTPHosts
  else if gce env then gcpNTPHosts
  else if azure env then azureNTPHosts
  else if alibaba env then alibabaNTPHosts
  else if tencent env then tencentNTPHosts
  else googleNTPHosts.

(** The loop of [parse] over [c.instance.Hosts]:
    [if h != c.instance.Host { hosts = append(hosts, h) }]. *)
Fixpoint appendOtherHosts (host : string) (hosts : list string) (configured : list string)
  : list string :=
  match configured with
  | [] => hosts
  | h :: rest =>
      if decide (h ≠ host) then appendOtherHosts host (hosts ++ [h]) rest
      else appendOtherHosts host hosts rest
  end.

Section parse.

(** [yaml.Unmarshal] into a zero-valued [ntpInstanceConfig], respectively
    [ntpInitConfig]: the decoder is a library. *)
Variable unmarshalInstance : list Byte.byte → result ntpInstanceConfig.
Variable unmarshalInitConf : list Byte.byte → result ntpInitConfig.
Variable env : CloudEnv.

(** [func (c *ntpConfig) parse(data, initData, getLocalServers) error].
    [getLocalServers] is called at most once, so it is given by what that
    call returns.  The result is the receiver after the call and the
    returned error, [None] for [nil]. *)
Definition parse (c : ntpConfig) (data initData : list Byte.byte)
    (getLocalServers : result (slice string)) : ntpConfig * option error :=
  let defaultVersion := 3 in
  let defaultTimeout := 5 in
  let defaultPort := 123 in
  let defaultOffsetThreshold := 60 in
  let defaultHosts := getCloudProviderNTPHosts env in
  match unmarshalInstance data with
  | Err err => (c, Some err)
  | Ok instance0 =>
  match unmarshalInitConf initData with
  | Err err => (c, Some err)
  | Ok initConf0 =>
  let c := mkConfig instance0 (initConf c) in
  match (if UseLocalDefinedServers (instance c) then getLocalServers else Ok None) with
  | Err err => (c, Some err)
  | Ok localNtpServers =>
  let i := instance c in
  let i :=
    if 0 <? len localNtpServers then setHosts localNtpServers i
    else if decide (Host i ≠ "") then
      setHosts (Some (appendOtherHosts (Host i) [Host i] (elems (Hosts i)))) i
    else i in
  let i := if Hosts i is None then setHosts defaultHosts i else i in
  let i := if Port i =? 0 then setPort defaultPort i else i in
  let i := if Version i =? 0 then setVersion defaultVersion i else i in
  let i := if Timeout i =? 0 then setTimeout defaultTimeout i else i in
  let i := if OffsetThreshold i =? 0 then setOffsetThreshold defaultOffsetThreshold i else i in
  (mkConfig i initConf0, None)
  end end end.

End parse.

(** ** Querying the hosts *)

(** [NTPCheck]: the fields [queryOffset] reads or writes.  [cfg] is set
    by [Configure] before the check runs. *)
Record NTPCheck := mkNTPCheck {
  cfg : ntpConfig;
  errCount : Z
}.

(** [ntp.QueryOptions], with the fields the check sets; [QTimeout] is a
    [time.Duration], a number of nanoseconds. *)
Record QueryOptions := mkQueryOptions {
  QVersion : Z;
  QPort : Z;
  QTimeout : Z
}.

(** [time.Second] *)
Definition Second : Z := 1000000000.

(** The options of every query:
    [time.Duration(c.cfg.instance.Timeout) * time.Second] is a 64-bit
    product. *)
Definition queryOptions (c : NTPCheck) : QueryOptions :=
  {| QVersion := Version (instance (cfg c));
     QPort := Port (instance (cfg c));
     QTimeout := wrap64 (Timeout (instance (cfg c)) * Second) |}.

(** The [float64] operations the check and [sort.Float64s] apply. *)
Class Float64 (F : Type) := {
  fzero : F;
  ftwo : F;
  fadd : F → F → F;
  fdiv : F → F → F;
  flt : F → F → bool;
  isNaN : F → bool
}.

(** [sort.Float64Slice.Less]: [x < y || (isNaN(x) && !isNaN(y))]. *)
Definition float64Less `{Float64 F} (x y : F) : bool :=
  flt x y || (isNaN x && negb (isNaN y)).

(** Two neighbours of a sorted slice: the second is not less than the
    first. *)
Definition notAfter `{Float64 F} : relation F :=
  λ x y, float64Less y x = false.

#[export] Instance notAfter_dec `{Float64 F} : RelDecision (notAfter (F:=F)).
Proof. intros x y. unfold notAfter. apply _. Defined.

(** [sort.Float64s]: the library sorts the slice in place by [Less];
    a merge sort by the same comparison stands for it. *)
Definition sortFloat64s `{Float64 F} (x : list F) : list F :=
  merge_sort notAfter x.

(** [x[i]]: an index out of range panics, which is [None] here. *)
Definition index {T} (x : list T) (i : Z) : option T :=
  if i <? 0 then None else x !! Z.to_nat i.

(** What a call returns: the pair [(float64, error)], or a run-time
    panic. *)
Inductive outcome (F : Type) :=
| Returns (v : F) (err : option error)
| Panics.
Arguments Returns {F} v err.
Arguments Panics {F}.

Section queryOffset.

Context {F : Type} `{Float64 F}.

(** The NTP library and the network behind it.  [ntpQuery] is the
    package variable of that name ([ntp.QueryWithOptions] unless a test
    replaces it); a query may change the world it runs in.
    [Validate] is the method of that name of [ntp.Response], [None]
    for [nil];
    [ClockOffsetSeconds r] is [r.ClockOffset.Seconds()]. *)
Context {World Response : Type}.
Variable ntpQuery : World → string → QueryOptions → World * result Response.
Variable Validate : Response → option error.
Variable ClockOffsetSeconds : Response → F.

(** The [for _, host := range c.cfg.instance.Hosts] loop, on the state
    it updates: the world, [c.errCount] and [offsets].  [c.errCount++]
    runs only below 10 and cannot overflow.  Log lines are left out. *)
Fixpoint queryHosts (opts : QueryOptions) (hosts : list string)
    (w : World) (errCount : Z) (offsets : list F) : World * Z * list F :=
  match hosts with
  | [] => (w, errCount, offsets)
  | host :: hosts =>
      let '(w, r) := ntpQuery w host opts in
      match r with
      | Err _ =>
          if 10 <=? errCount then queryHosts opts hosts w 0 offsets
          else queryHosts opts hosts w (errCount + 1) offsets
      | Ok response =>
          match Validate response with
          | Some _ => queryHosts opts hosts w 0 offsets
          | None =>
              queryHosts opts hosts w 0 (offsets ++ [ClockOffsetSeconds response])
          end
      end
  end.

(** [func (c *NTPCheck) queryOffset() (float64, error)] *)
Definition queryOffset (w : World) (c : NTPCheck) : World * NTPCheck * outcome F :=
  let '(w, n, offsets) :=
    queryHosts (queryOptions c) (elems (Hosts (instance (cfg c)))) w (errCount c) [] in
  let c := mkNTPCheck (cfg c) n in
  if len (Some offsets) =? 0 then
    (w, c, Returns fzero (Some "Failed to get clock offset from any ntp host"))
  else
    let offsets := sortFloat64s offsets in
    let length := len (Some offsets) in
    if Z.rem length 2 =? 0 then
      match index offsets (Z.quot length 2 - 1), index offsets (Z.quot length 2) with
      | Some a, Some b => (w, c, Returns (fdiv (fadd a b) ftwo) None)
      | _, _ => (w, c, Panics)
      end
    else
      match index offsets (Z.quot length 2) with
      | Some median => (w, c, Returns median None)
      | None => (w, c, Panics)
      end.

(** *** What the hosts answered *)

(** The answers of the hosts of one run, in the order of the queries. *)
Fixpoint answers (opts : QueryOptions) (hosts : list string) (w : World)
  : list (result Response) :=
  match hosts with
  | [] => []
  | host :: hosts =>
      let '(w, r) := ntpQuery w host opts in r :: answers opts hosts w
  end.

(** An answer counts when the query succeeded and the response passes
    validation. *)
Definition usable (r : result Response) : bool :=
  match r with
  | Ok response => if Validate response is None then true else false
  | Err _ => false
  end.

(** The clock offsets, in seconds, of the answers that count. *)
Definition collected (rs : list (result Response)) : list F :=
  omap (λ r, match r with
             | Ok response => if usable r then Some (ClockOffsetSeconds response) else None
             | Err _ => None
             end) rs.

End queryOffset.

(** ** Running the check *)

(** [metrics.ServiceCheckStatus], in the order of its constants. *)
Inductive ServiceCheckStatus :=
| ServiceCheckOK
| ServiceCheckWarning
| ServiceCheckCritical
| ServiceCheckUnknown.

(** What a run hands over: the calls on the sender and the two
    package-level gauges, in the order they are made. *)
Inductive Emission (F : Type) :=
| Gauge (metric : string) (value : F) (hostname : string) (tags : slice string)
| ExpVarSet (value : F)
| TelemetrySet (value : F)
| ServiceCheck (checkName : string) (status : ServiceCheckStatus)
               (hostname : string) (tags : slice string) (message : string)
| Commit.
Arguments Gauge {F} metric value hostname tags.
Arguments ExpVarSet {F} value.
Arguments TelemetrySet {F} value.
Arguments ServiceCheck {F} checkName status hostname tags message.
Arguments Commit {F}.

(** The check with the field [Run] writes besides those of
    [queryOffset]: [lastCollection], a [time.Time]. *)
Record RunState (Time : Type) := mkRunState {
  check : NTPCheck;
  lastCollection : Time
}.
Arguments mkRunState {Time} check lastCollection.
Arguments check {Time} r.
Arguments lastCollection {Time} r.

Section Run.

Context {F : Type} `{Float64 F}.
Context {World Response Time : Type}.
Variable ntpQuery : World → string → QueryOptions → World * result Response.
Variable Validate : Response → option error.
Variable ClockOffsetSeconds : Response → F.

(** [math.Abs], the conversion [int(x)] of a [float64], and the [%v]
    formats of [fmt.Sprintf] for a [float64] and for an [int]. *)
Variable fabs : F → F.
Variable toInt : F → Z.
Variable formatFloat : F → string.
Variable formatInt : Z → string.

(** [func (c *NTPCheck) Run() error].  [getSender] is what
    [aggregator.GetSender(c.ID())] returns beside the sender, [now] what
    [time.Now()] returns; both are called at most once.  The result is
    the world and the check after the run, the emissions, and the
    returned error, or [None] when the run panics. *)
Definition Run (getSender : option error) (now : Time) (w : World)
    (c : RunState Time)
  : World * RunState Time * list (Emission F) * option (option error) :=
  match getSender with
  | Some err => (w, c, [], Some (Some err))
  | None =>
      let offsetThreshold := OffsetThreshold (instance (cfg (check c))) in
      let '(w, chk, out) :=
        queryOffset ntpQuery Validate ClockOffsetSeconds w (check c) in
      match out with
      | Panics => (w, mkRunState chk (lastCollection c), [], None)
      | Returns clockOffset (Some err) =>
          (w, mkRunState chk now,
           [ ServiceCheck "ntp.in_sync" ServiceCheckUnknown "" None "";
             Commit ],
           Some None)
      | Returns clockOffset None =>
          let '(serviceCheckStatus, serviceCheckMessage) :=
            if offsetThreshold <? toInt (fabs clockOffset) then
              (ServiceCheckCritical,
               "Offset " +:+ formatFloat clockOffset +:+
               " is higher than offset threshold (" +:+
               formatInt offsetThreshold +:+ " secs)")
            else (ServiceCheckOK, "") in
          (w, mkRunState chk now,
           [ Gauge "ntp.offset" clockOffset "" None;
             ExpVarSet clockOffset;
             TelemetrySet clockOffset;
             ServiceCheck "ntp.in_sync" serviceCheckStatus "" None
                          serviceCheckMessage;
             Commit ],
           Some None)
      end
  end.

End Run.

(** ** Configuring the check *)

(** The check with its embedded [core.CheckBase], whose type is declared
    in another package. *)
Record ConfiguredCheck (Base : Type) := mkConfiguredCheck {
  CheckBase : Base;
  ntp : NTPCheck
}.
Arguments mkConfiguredCheck {Base} CheckBase ntp.
Arguments CheckBase {Base} c.
Arguments ntp {Base} c.

(** [new(ntpConfig)]: every field holds its zero value. *)
Definition newConfig : ntpConfig :=
  mkConfig (mkInstance 0 "" None 0 0 0 false) mkInitConfig.

Section Configure.

Context {Base : Type}.
Variable unmarshalInstance : list Byte.byte → result ntpInstanceConfig.
Variable unmarshalInitConf : list Byte.byte → result ntpInitConfig.
Variable env : CloudEnv.

(** The methods [BuildID] and [CommonConfigure] of [core.CheckBase], and
    what a call of [getLocalDefinedNTPServers] returns. *)
Variable BuildID : Base → list Byte.byte → list Byte.byte → Base.
Variable CommonConfigure : Base → list Byte.byte → string → Base * option error.
Variable getLocalDefinedNTPServers : result (slice string).

(** [func (c *NTPCheck) Configure(data, initConfig, source) error] (the
    log line is left out). *)
Definition Configure (c : ConfiguredCheck Base) (data initConfig : list Byte.byte)
    (source : string) : ConfiguredCheck Base * option error :=
  let '(cfg, err) :=
    parse unmarshalInstance unmarshalInitConf env newConfig data initConfig
          getLocalDefinedNTPServers in
  match err with
  | Some err => (c, Some err)
  | None =>
      let base := BuildID (CheckBase c) data initConfig in
      let chk := mkNTPCheck cfg (errCount (ntp c)) in
      let '(base, err) := CommonConfigure base data source in
      (mkConfiguredCheck base chk, err)
  end.

End Configure.

(** The IEEE 754 binary64 numbers, Go's [float64]; [isNaN x] is
    [x != x]. *)
Definition Float64_binary64 : Float64 PrimFloat.float :=
  {| fzero := 0%float; ftwo := 2%float;
     fadd := PrimFloat.add; fdiv := PrimFloat.div;
     flt := PrimFloat.ltb; isNaN := λ x, negb (PrimFloat.eqb x x) |}.

(** Numbers without rounding, the integers: an instance on which the
    order of [sort.Float64s] is total by computation. *)
Definition Float64_Z : Float64 Z :=
  {| fzero := 0; ftwo := 2; fadd := Z.add; fdiv := Z.div;
     flt := Z.ltb; isNaN := λ _, false |}.

(** ** Sample runs *)

(** A host with no cloud provider. *)
Definition noCloud : CloudEnv := mkCloudEnv false false false false false false.

(** A network in which the host ["down"] does not answer, and any other
    host answers with an offset equal to the length of its name; a
    response is valid unless its offset is zero. *)
Definition sampleQuery (w : unit) (host : string) (opts : QueryOptions)
  : unit * result Z :=
  (w, if decide (host = "down") then Err "i/o timeout"
      else Ok (Z.of_nat (String.length host))).
Definition sampleValidate (r : Z) : option error :=
  if r =? 0 then Some "invalid response" else None.

Definition sampleCheck (hosts : list string) : NTPCheck :=
  mkNTPCheck (mkConfig (mkInstance 60 "" (Some hosts) 123 5 3 false) mkInitConfig) 0.

(** A decoder that gives [inst] for the empty document and [inst'] for
    any other, and one that accepts every init configuration. *)
Definition sampleUnmarshal (inst inst' : ntpInstanceConfig) (data : list Byte.byte)
  : result ntpInstanceConfig :=
  match data with
  | [] => Ok inst
  | _ :: _ => Ok inst'
  end.
Definition sampleUnmarshalInit (data : list Byte.byte) : result ntpInitConfig :=
  Ok mkInitConfig.

(** An instance in which only the hosts are set. *)
Definition hostsOnly (host : string) (hosts : slice string) : ntpInstanceConfig :=
  mkInstance 0 host hosts 0 0 0 false.

(** A run of the check on the sample network, the time being a number,
    and a configuration of a check whose base carries nothing. *)
Definition sampleRun (getSender : option error) (c : RunState nat) :=
  Run (H:=Float64_Z) sampleQuery sampleValidate id Z.abs id
      (λ _, "offset") (λ _, "threshold") getSender 1%nat () c.
Definition sampleConfigure (unmarshalInstance : list Byte.byte → result ntpInstanceConfig)
    (c : ConfiguredCheck unit) :=
  Configure unmarshalInstance sampleUnmarshalInit noCloud
            (λ base _ _, base) (λ base _ _, (base, None)) (Ok None)
            c [] [] "file".

(** ** Notions the statements use *)

(** How often [h] occurs in [l]. *)
Definition occurrences (h : string) (l : list string) : nat :=
  length (filter (λ x, x = h) l).

(** The local servers are not used: they are not asked for, or the call
    returns none. *)
Definition noLocalServers (inst : ntpInstanceConfig)
    (getLocalServers : result (slice string)) : Prop :=
  UseLocalDefinedServers inst = false ∨
  ∃ servers, getLocalServers = Ok servers ∧ len servers = 0.

End net.

(* ================================================================== *)
(** * The exec catalog *)
(* ================================================================== *)

Import probe.

(** A section name built on a prefix that is not empty is not empty. *)
Lemma kprobeSection_nonempty symbol : kprobeSection symbol ≠ "".
Proof. discriminate. Qed.

Lemma kretprobeSection_nonempty symbol : kretprobeSection symbol ≠ "".
Proof. discriminate. Qed.

(** The two conventions never name the same section. *)
Lemma kprobeSection_neq_kretprobeSection s1 s2 :
  kprobeSection s1 ≠ kretprobeSection s2.
Proof. discriminate. Qed.

(** A specification with only an entry section asks for one entry
    attachment, and likewise for an exit section. *)
Lemma attachKinds_entry_only s :
  s ≠ "" → attachKinds (mkKProbe s "") = [entry].
Proof.
  intros Hs. unfold attachKinds. cbn [EntryFunc ExitFunc].
  destruct (decide (s = "")) as [->|_]; [done|].
  by destruct (decide ("" = "")).
Qed.

Lemma attachKinds_exit_only s :
  s ≠ "" → attachKinds (mkKProbe "" s) = [exit].
Proof.
  intros Hs. unfold attachKinds. cbn [EntryFunc ExitFunc].
  destruct (decide ("" = "")); [|done].
  by destruct (decide (s = "")) as [->|_].
Qed.

(** Under a map made of the one wildcard entry with no capability, every
    event type requires nothing, and every consumer satisfies that. *)
Lemma wildcard_open (hp : HookPoint) :
  EventTypes hp = {[ "*" := ∅ ]} →
  ∀ (consumer : Capabilities) (eventType : string),
    requiredCapabilities hp eventType = Some ∅ ∧
    consumerSatisfies consumer ∅ = true.
Proof.
  intros Hmap consumer eventType. split.
  - unfold requiredCapabilities. rewrite Hmap.
    destruct (decide (eventType = "*")) as [->|Hne].
    + by rewrite lookup_singleton_eq.
    + rewrite lookup_singleton_ne by done. by rewrite lookup_singleton_eq.
  - unfold consumerSatisfies. apply bool_decide_eq_true. set_solver.
Qed.

(** Splits a [Forall] over a list given by its elements into one goal
    per element. *)
Ltac forall_elements :=
  repeat match goal with
         | |- Forall _ (_ :: _) => apply Forall_cons_2
         | |- Forall _ [] => apply Forall_nil_2
         end;
  cbv beta.

Section ExecCatalog.

Variable getSyscallFnName : string → string.

Let catalog := ExecHookPoints getSyscallFnName.

(** C1: the catalog declares exactly the four hook points [sys_execve],
    [sys_execveat], [do_fork] and [do_exit], in this order; only
    [sys_execveat] is optional; [sys_execve] and [sys_execveat] each
    have a single probe, an entry probe on the syscall function of
    [execve], respectively [execveat]. *)
Theorem ExecHookPoints_declared :
  (λ hp, (Name hp, Optional hp)) <$> catalog =
    [ ("sys_execve", false); ("sys_execveat", true);
      ("do_fork", false); ("do_exit", false) ] ∧
  KProbes <$> catalog !! 0%nat =
    Some [ mkKProbe (kprobeSection (getSyscallFnName "execve")) "" ] ∧
  KProbes <$> catalog !! 1%nat =
    Some [ mkKProbe (kprobeSection (getSyscallFnName "execveat")) "" ] ∧
  attachKinds (mkKProbe (kprobeSection (getSyscallFnName "execve")) "") = [entry] ∧
  attachKinds (mkKProbe (kprobeSection (getSyscallFnName "execveat")) "") = [entry].
Proof.
  repeat split; try reflexivity;
    apply attachKinds_entry_only, kprobeSection_nonempty.
Qed.

(** C2: the probe list of [do_fork] is made of two exit probes, the one
    on [_do_fork] first and the one on [do_fork] second. *)
Theorem do_fork_candidates :
  KProbes <$> get catalog "do_fork" =
    Some [ mkKProbe "" (kretprobeSection "_do_fork");
           mkKProbe "" (kretprobeSection "do_fork") ] ∧
  attachKinds (mkKProbe "" (kretprobeSection "_do_fork")) = [exit] ∧
  attachKinds (mkKProbe "" (kretprobeSection "do_fork")) = [exit].
Proof.
  repeat split; try reflexivity;
    apply attachKinds_exit_only, kretprobeSection_nonempty.
Qed.

(** C3: the single probe of [do_exit] sets its exit section, but to the
    name ["kprobe/do_exit"], which is not the return-probe section
    ["kretprobe/do_exit"] the exit probes of [do_fork] are written
    with. *)
Theorem do_exit_probe_section :
  KProbes <$> get catalog "do_exit" =
    Some [ mkKProbe "" (kprobeSection "do_exit") ] ∧
  KProbes <$> get catalog "do_exit" ≠
    Some [ mkKProbe "" (kretprobeSection "do_exit") ] ∧
  Forall (λ k, ∃ symbol, ExitFunc k = kretprobeSection symbol)
    (default [] (KProbes <$> get catalog "do_fork")).
Proof.
  assert (KProbes <$> get catalog "do_exit" =
            Some [ mkKProbe "" (kprobeSection "do_exit") ]) as Hexit
    by reflexivity.
  assert (KProbes <$> get catalog "do_fork" =
            Some [ mkKProbe "" (kretprobeSection "_do_fork");
                   mkKProbe "" (kretprobeSection "do_fork") ]) as Hfork
    by reflexivity.
  rewrite Hexit, Hfork. split; [reflexivity|]. split.
  - intros Heq. by simplify_eq.
  - cbn [from_option id]. forall_elements; eexists; reflexivity.
Qed.

(** C4: every hook point of the catalog maps the wildcard, and nothing
    else, to the empty capability set; whatever the event type, the
    required set is empty and every consumer, one without any capability
    included, satisfies it. *)
Theorem ExecHookPoints_open_to_all :
  Forall (λ hp,
    EventTypes hp = {[ "*" := ∅ ]} ∧
    ∀ (consumer : Capabilities) (eventType : string),
      ∃ required,
        requiredCapabilities hp eventType = Some required ∧
        required = ∅ ∧
        consumerSatisfies consumer required = true) catalog.
Proof.
  unfold catalog, ExecHookPoints.
  forall_elements; (split; [reflexivity|]);
    intros consumer eventType; exists ∅;
    match goal with
    | |- requiredCapabilities ?hp _ = _ ∧ _ =>
        destruct (wildcard_open hp eq_refl consumer eventType) as [Hreq Hsat]
    end; auto.
Qed.

(** C5: no hook point of the catalog has an empty probe list. *)
Theorem ExecHookPoints_probes_nonempty :
  Forall (λ hp, KProbes hp ≠ [] ∧ (0 < length (KProbes hp))%nat) catalog.
Proof.
  unfold catalog, ExecHookPoints.
  forall_elements; cbn; split; (done || lia).
Qed.

(** C6: every probe specification of the catalog sets its entry section
    or its exit section, never both and never neither: it asks for one
    attachment. *)
Theorem ExecHookPoints_one_kind :
  Forall (λ hp,
    Forall (λ k,
      ((EntryFunc k ≠ "" ∧ ExitFunc k = "") ∨
       (EntryFunc k = "" ∧ ExitFunc k ≠ "")) ∧
      ∃ kind, attachKinds k = [kind]) (KProbes hp)) catalog.
Proof.
  unfold catalog, ExecHookPoints.
  forall_elements; cbn [KProbes]; forall_elements; cbn [EntryFunc ExitFunc];
    (split;
     [ first [ left; split; [discriminate | reflexivity]
             | right; split; [reflexivity | discriminate] ]
     | first [ exists entry; apply attachKinds_entry_only; discriminate
             | exists exit; apply attachKinds_exit_only; discriminate ] ]).
Qed.

(** C7: the table list [ExecTables] is empty and no hook point of the
    catalog names a table, so every table a hook point names is in the
    list. *)
Theorem ExecHookPoints_tables_declared :
  ExecTables = [] ∧
  Forall (λ hp,
    Tables hp = [] ∧
    ∀ t, t ∈ Tables hp → t ∈ TableName <$> ExecTables) catalog.
Proof.
  split; [reflexivity|]. unfold catalog, ExecHookPoints.
  forall_elements; (split; [reflexivity|]);
    cbn; intros t Ht; by apply not_elem_of_nil in Ht.
Qed.

End ExecCatalog.

(* ================================================================== *)
(** * The NTP configuration *)
(* ================================================================== *)

Import net.

(** The loop over the configured hosts appends, in order, those that
    differ from [host]. *)
Lemma appendOtherHosts_filter host hosts configured :
  appendOtherHosts host hosts configured =
  hosts ++ filter (λ h, h ≠ host) configured.
Proof.
  revert hosts.
  induction configured as [|h rest IH]; intros hosts; cbn [appendOtherHosts].
  - by rewrite app_nil_r.
  - rewrite filter_cons. destruct (decide (h ≠ host)).
    + rewrite IH, <- app_assoc. reflexivity.
    + apply IH.
Qed.

Lemma occurrences_filter_ne host l :
  occurrences host (filter (λ h, h ≠ host) l) = 0%nat.
Proof.
  unfold occurrences. induction l as [|h rest IH]; [done|].
  rewrite filter_cons. destruct (decide (h ≠ host)) as [Hne|_]; [|done].
  rewrite filter_cons. by destruct (decide (h = host)).
Qed.

Lemma occurrences_filter_other host h l :
  h ≠ host →
  occurrences h (filter (λ x, x ≠ host) l) = occurrences h l.
Proof.
  intros Hne. unfold occurrences. induction l as [|x rest IH]; [done|].
  rewrite (filter_cons (λ x, x ≠ host)).
  destruct (decide (x ≠ host)) as [Hx|Hx].
  - rewrite !filter_cons. destruct (decide (x = h)); cbn [length]; congruence.
  - apply dec_stable in Hx. subst x. rewrite filter_cons.
    destruct (decide (host = h)); [congruence|]. exact IH.
Qed.

(** Decides the zero tests of [parse] one after the other. *)
Ltac zero_tests :=
  repeat (case_match;
          cbn [Port Version Timeout OffsetThreshold Hosts setPort setVersion
               setTimeout setOffsetThreshold] in *);
  repeat match goal with
         | H : (_ =? _) = true |- _ => apply Z.eqb_eq in H
         | H : (_ =? _) = false |- _ => apply Z.eqb_neq in H
         end.

Section Parse.

Variable unmarshalInstance : list Byte.byte → result ntpInstanceConfig.
Variable unmarshalInitConf : list Byte.byte → result ntpInitConfig.
Variable env : CloudEnv.

Let parse := net.parse unmarshalInstance unmarshalInitConf env.

(** When the local servers are not used, the local server list of
    [parse] is empty. *)
Lemma noLocalServers_len inst getLocalServers servers :
  noLocalServers inst getLocalServers →
  (if UseLocalDefinedServers inst then getLocalServers else Ok None) = Ok servers →
  (0 <? len servers) = false.
Proof.
  intros [Hoff|(l & -> & Hlen)] Hcall.
  - rewrite Hoff in Hcall. by simplify_eq.
  - destruct (UseLocalDefinedServers inst); simplify_eq; [|done].
    rewrite Hlen. done.
Qed.

(** C9: after a successful [parse], a port, version, timeout or offset
    threshold that the decoded instance leaves at zero holds its default
    (123, 3, 5, 60), one that is set is kept, and when no host is
    configured (local servers not used, [Host] empty, [Hosts] nil) the
    host list is the default list of the cloud provider. *)
Theorem parse_defaults c data initData getLocalServers c' :
  parse c data initData getLocalServers = (c', None) →
  ∃ inst,
    unmarshalInstance data = Ok inst ∧
    (Port inst = 0 → Port (instance c') = 123) ∧
    (Version inst = 0 → Version (instance c') = 3) ∧
    (Timeout inst = 0 → Timeout (instance c') = 5) ∧
    (OffsetThreshold inst = 0 → OffsetThreshold (instance c') = 60) ∧
    (Port inst ≠ 0 → Port (instance c') = Port inst) ∧
    (Version inst ≠ 0 → Version (instance c') = Version inst) ∧
    (Timeout inst ≠ 0 → Timeout (instance c') = Timeout inst) ∧
    (OffsetThreshold inst ≠ 0 → OffsetThreshold (instance c') = OffsetThreshold inst) ∧
    (noLocalServers inst getLocalServers → Host inst = "" → Hosts inst = None →
       Hosts (instance c') = getCloudProviderNTPHosts env).
Proof.
  unfold parse, net.parse.
  destruct (unmarshalInstance data) as [inst|]; [|done].
  destruct (unmarshalInitConf initData) as [ic|]; [|done].
  cbn [instance initConf].
  destruct (if UseLocalDefinedServers inst then _ else _) as [servers|] eqn:Hcall;
    [|done].
  intros [= <-]. exists inst. split; [done|]. cbn [instance].
  set (i1 := if 0 <? len servers then _ else _).
  set (i2 := match Hosts i1 with None => _ | Some _ => _ end).
  assert (Port i2 = Port inst ∧ Version i2 = Version inst ∧
          Timeout i2 = Timeout inst ∧ OffsetThreshold i2 = OffsetThreshold inst)
    as (HP & HV & HT & HO).
  { subst i2 i1. repeat case_match; done. }
  assert (noLocalServers inst getLocalServers → Host inst = "" →
          Hosts inst = None → Hosts i2 = getCloudProviderNTPHosts env)
    as Hdefault.
  { intros Hlocal Hhost Hnil. subst i2 i1.
    rewrite (noLocalServers_len _ _ _ Hlocal Hcall).
    destruct (decide (Host inst ≠ "")); [done|]. by rewrite Hnil. }
  clearbody i2. clear i1.
  repeat split.
  1-8: intros Hz; zero_tests; lia.
  intros Hlocal Hhost Hnil. rewrite <- Hdefault by done.
  zero_tests; done.
Qed.

(** C10: when both documents decode, the local servers are not used and
    [Host] is set, [parse] succeeds and leaves [Host] followed by the
    configured hosts other than [Host], in their order; [Host] occurs
    once, and any other host as often as it was configured. *)
Theorem parse_host_first c data initData getLocalServers inst ic :
  unmarshalInstance data = Ok inst →
  unmarshalInitConf initData = Ok ic →
  noLocalServers inst getLocalServers →
  Host inst ≠ "" →
  let others := filter (λ h, h ≠ Host inst) (elems (Hosts inst)) in
  ∃ c',
    parse c data initData getLocalServers = (c', None) ∧
    Hosts (instance c') = Some (Host inst :: others) ∧
    occurrences (Host inst) (Host inst :: others) = 1%nat ∧
    ∀ h, h ≠ Host inst →
         occurrences h (Host inst :: others) = occurrences h (elems (Hosts inst)).
Proof.
  intros Hinst Hic Hlocal Hhost others.
  unfold parse, net.parse. rewrite Hinst, Hic. cbn [instance initConf].
  assert (∃ servers,
            (if UseLocalDefinedServers inst then getLocalServers else Ok None) =
            Ok servers) as [servers Hcall].
  { destruct Hlocal as [->|(l & -> & _)]; [by eexists|].
    destruct (UseLocalDefinedServers inst); by eexists. }
  rewrite Hcall, (noLocalServers_len _ _ _ Hlocal Hcall).
  destruct (decide (Host inst ≠ "")); [|done].
  rewrite appendOtherHosts_filter. cbn [app]. fold others.
  eexists. split; [reflexivity|]. split; [|split].
  - cbn [instance]. zero_tests; done.
  - unfold occurrences. rewrite filter_cons.
    destruct (decide (Host inst = Host inst)); [|done]. cbn [length].
    f_equal. apply occurrences_filter_ne.
  - intros h Hne. unfold occurrences at 1. rewrite filter_cons.
    destruct (decide (Host inst = h)); [congruence|].
    by apply occurrences_filter_other.
Qed.

End Parse.

(* ================================================================== *)
(** * The clock offset *)
(* ================================================================== *)

(** An index below the length of a slice does not panic. *)
Lemma index_in_range {T} (x : list T) (i : Z) :
  0 ≤ i < len (Some x) → ∃ v, index x i = Some v ∧ x !! Z.to_nat i = Some v.
Proof.
  unfold len, index. cbn [from_option id]. intros Hi.
  destruct (x !! Z.to_nat i) as [v|] eqn:Hv.
  - exists v. by rewrite (proj2 (Z.ltb_ge i 0)) by lia.
  - apply lookup_ge_None in Hv. lia.
Qed.

(** Halving a length with Go's integer division. *)
Lemma quot_half (n : nat) :
  Z.to_nat (Z.quot (Z.of_nat n) 2) = (n / 2)%nat.
Proof.
  rewrite Z.quot_div_nonneg by lia.
  change 2 with (Z.of_nat 2). rewrite <- Nat2Z.inj_div. apply Nat2Z.id.
Qed.

Lemma rem_half (n : nat) :
  Z.rem (Z.of_nat n) 2 = Z.of_nat (n mod 2).
Proof.
  rewrite Z.rem_mod_nonneg by lia.
  change 2 with (Z.of_nat 2). by rewrite <- Nat2Z.inj_mod.
Qed.

Section QueryOffset.

Context {F : Type} `{Float64 F}.
Context {World Response : Type}.
Variable ntpQuery : World → string → QueryOptions → World * result Response.
Variable Validate : Response → option error.
Variable ClockOffsetSeconds : Response → F.

Let answers := net.answers ntpQuery.
Let collected := net.collected Validate ClockOffsetSeconds.
Let usable := net.usable Validate.
Let queryHosts := net.queryHosts ntpQuery Validate ClockOffsetSeconds.
Let queryOffset := net.queryOffset ntpQuery Validate ClockOffsetSeconds.

(** The loop appends to [offsets] the offsets of the answers that
    count, in the order of the hosts. *)
Lemma queryHosts_offsets opts hosts w errCount offsets :
  (queryHosts opts hosts w errCount offsets).2 =
  offsets ++ collected (answers opts hosts w).
Proof.
  revert w errCount offsets.
  induction hosts as [|host hosts IH]; intros w errCount offsets.
  - cbn. by rewrite app_nil_r.
  - unfold queryHosts, answers in *.
    cbn [net.queryHosts net.answers].
    destruct (ntpQuery w host opts) as [w' [response|e]].
    + unfold collected in *.
      cbn [net.collected omap list_omap net.usable].
      destruct (Validate response); rewrite IH; [done|].
      by rewrite <- app_assoc.
    + unfold collected in *. cbn [net.collected omap list_omap].
      destruct (10 <=? errCount); apply IH.
Qed.

(** No offset is collected exactly when no answer counts. *)
Lemma collected_nil rs :
  collected rs = [] ↔ Forall (λ r, usable r = false) rs.
Proof.
  unfold collected, usable, net.collected.
  induction rs as [|r rs IH]; cbn [omap list_omap].
  - split; [constructor | done].
  - rewrite Forall_cons. destruct r as [response|e]; cbn [net.usable].
    + destruct (Validate response); rewrite ?IH; intuition congruence.
    + rewrite IH. intuition congruence.
Qed.

(** The median of a sorted slice that is not empty: the two branches of
    [queryOffset] index the slice within its bounds. *)
Lemma median_returns (w : World) (c : NTPCheck) (sorted : list F) :
  sorted ≠ [] →
  ∃ v,
    (if Z.rem (len (Some sorted)) 2 =? 0 then
       match index sorted (Z.quot (len (Some sorted)) 2 - 1),
             index sorted (Z.quot (len (Some sorted)) 2) with
       | Some a, Some b => (w, c, Returns (fdiv (fadd a b) ftwo) None)
       | _, _ => (w, c, Panics)
       end
     else
       match index sorted (Z.quot (len (Some sorted)) 2) with
       | Some median => (w, c, Returns median None)
       | None => (w, c, Panics)
       end) = (w, c, Returns v None) ∧
    ((length sorted mod 2 = 1)%nat →
       sorted !! (length sorted / 2)%nat = Some v) ∧
    ((length sorted mod 2 = 0)%nat →
       ∃ a b, sorted !! (length sorted / 2 - 1)%nat = Some a ∧
              sorted !! (length sorted / 2)%nat = Some b ∧
              v = fdiv (fadd a b) ftwo).
Proof.
  intros Hne.
  assert (0 < length sorted)%nat as Hpos by (destruct sorted; [done | cbn; lia]).
  assert (len (Some sorted) = Z.of_nat (length sorted)) as -> by done.
  pose proof (Nat.div_mod_eq (length sorted) 2) as Hdm.
  pose proof (Nat.mod_upper_bound (length sorted) 2 ltac:(lia)) as Hm.
  assert (∀ i : nat, (i < length sorted)%nat →
            ∃ v, index sorted (Z.of_nat i) = Some v ∧ sorted !! i = Some v)
    as Hindex.
  { intros i Hi. destruct (index_in_range sorted (Z.of_nat i)) as (v & Hv & Hl).
    - unfold len. cbn [from_option id]. lia.
    - exists v. by rewrite Nat2Z.id in Hl. }
  rewrite rem_half.
  replace (Z.quot (Z.of_nat (length sorted)) 2)
    with (Z.of_nat (length sorted / 2))
    by (rewrite <- quot_half, Z2Nat.id; [done | apply Z.quot_pos; lia]).
  destruct (Z.of_nat (length sorted mod 2) =? 0) eqn:Hparity.
  - apply Z.eqb_eq in Hparity.
    replace (Z.of_nat (length sorted / 2) - 1)
      with (Z.of_nat (length sorted / 2 - 1)) by lia.
    destruct (Hindex (length sorted / 2 - 1)%nat) as (a & -> & Ha); [lia|].
    destruct (Hindex (length sorted / 2)%nat) as (b & -> & Hb); [lia|].
    exists (fdiv (fadd a b) ftwo). split; [done|]. split; [lia|].
    intros _. by exists a, b.
  - apply Z.eqb_neq in Hparity.
    destruct (Hindex (length sorted / 2)%nat) as (m & -> & Hmid); [lia|].
    exists m. split; [done|]. split; [done | lia].
Qed.

(** The order [sort.Float64s] sorts by. *)
Hypothesis less_asym : ∀ x y : F, float64Less x y = true → float64Less y x = false.
Hypothesis notAfter_trans : ∀ x y z : F, notAfter x y → notAfter y z → notAfter x z.

Lemma notAfter_total : Total (notAfter (F:=F)).
Proof.
  intros x y. unfold notAfter.
  destruct (float64Less y x) eqn:Hyx; [right; by apply less_asym | by left].
Qed.

Lemma sortFloat64s_sorted (x : list F) :
  StronglySorted notAfter (sortFloat64s x) ∧ sortFloat64s x ≡ₚ x.
Proof.
  split; [|apply merge_sort_Permutation].
  apply (@StronglySorted_merge_sort _ notAfter _ notAfter_trans notAfter_total).
Qed.

(** C8: [queryOffset] returns an error if and only if no host gives an
    answer that counts, a successful query whose response passes
    validation.  Otherwise it returns, without error, the median of the
    collected offsets: with [sorted] the offsets in sorted order, the
    element in the middle when their number is odd, and the sum of the
    two elements in the middle divided by two when it is even. *)
Theorem queryOffset_median w c :
  let rs := answers (queryOptions c) (elems (Hosts (instance (cfg c)))) w in
  let out := (queryOffset w c).2 in
  ((∃ v e, out = Returns v (Some e)) ↔ Forall (λ r, usable r = false) rs) ∧
  (Exists (λ r, usable r = true) rs →
   ∃ sorted,
     sorted ≡ₚ collected rs ∧
     StronglySorted notAfter sorted ∧
     let n := length sorted in
     ((n mod 2 = 1)%nat →
        ∃ m, sorted !! (n / 2)%nat = Some m ∧ out = Returns m None) ∧
     ((n mod 2 = 0)%nat →
        ∃ a b, sorted !! (n / 2 - 1)%nat = Some a ∧
               sorted !! (n / 2)%nat = Some b ∧
               out = Returns (fdiv (fadd a b) ftwo) None)).
Proof.
  intros rs out. subst out. unfold queryOffset, net.queryOffset.
  pose proof (queryHosts_offsets (queryOptions c)
                (elems (Hosts (instance (cfg c)))) w (errCount c) []) as Hoffsets.
  unfold queryHosts in Hoffsets.
  destruct (net.queryHosts _ _ _ _ _ _ _ _) as [[w' n'] offsets].
  cbn [snd app] in Hoffsets. fold rs in Hoffsets. subst offsets.
  pose proof (collected_nil rs) as Hnil.
  destruct (len (Some (collected rs)) =? 0) eqn:Hzero.
  - (* nothing collected: the error *)
    apply Z.eqb_eq in Hzero.
    assert (collected rs = []) as Hempty
      by (destruct (collected rs); [done | unfold len in Hzero; cbn in Hzero; lia]).
    apply Hnil in Hempty. cbn [snd].
    split; [split; [done | by eauto]|].
    intros Hsome. apply Exists_exists in Hsome as (r & Hr & Hu).
    rewrite Forall_forall in Hempty. specialize (Hempty r Hr). congruence.
  - (* some offsets: the median of the sorted slice *)
    apply Z.eqb_neq in Hzero.
    assert (collected rs ≠ []) as Hne by (intros Heq; by rewrite Heq in Hzero).
    destruct (sortFloat64s_sorted (collected rs)) as [Hsorted Hperm].
    assert (sortFloat64s (collected rs) ≠ []) as Hne'.
    { intros Heq. rewrite Heq in Hperm. by apply Permutation_nil_l in Hperm. }
    destruct (median_returns w' (mkNTPCheck (cfg c) n') _ Hne')
      as (v & Hout & Hodd & Heven).
    cbv zeta. rewrite Hout. cbn [snd]. split.
    + split; [by intros (? & ? & [=]) | ].
      intros Hall. by apply Hnil in Hall.
    + intros _. exists (sortFloat64s (collected rs)).
      split; [done|]. split; [done|]. split.
      * intros Hp. exists v. by split; [apply Hodd|].
      * intros Hp. destruct (Heven Hp) as (a & b & Ha & Hb & ->). by exists a, b.
Qed.

End QueryOffset.

(* ================================================================== *)
(** * Sample runs *)
(* ================================================================== *)

(** On the integers the comparison of [sort.Float64s] is a strict total
    order. *)
Lemma Float64_Z_less_asym (x y : Z) :
  float64Less (H:=Float64_Z) x y = true → float64Less (H:=Float64_Z) y x = false.
Proof.
  unfold float64Less. cbn. rewrite !orb_false_r.
  intros Hlt. apply Z.ltb_lt in Hlt. apply Z.ltb_ge. lia.
Qed.

Lemma Float64_Z_notAfter_trans (x y z : Z) :
  notAfter (H:=Float64_Z) x y → notAfter (H:=Float64_Z) y z →
  notAfter (H:=Float64_Z) x z.
Proof.
  unfold notAfter, float64Less. cbn. rewrite !orb_false_r.
  intros Hxy Hyz. apply Z.ltb_ge in Hxy, Hyz. apply Z.ltb_ge. lia.
Qed.

(** Three hosts answer out of four: the median of 1, 3 and 2. *)
Lemma queryOffset_median_witness :
  let c := sampleCheck ["a"; "down"; "ccc"; "bb"] in
  let out := (queryOffset (H:=Float64_Z) sampleQuery sampleValidate id () c).2 in
  (∀ x y : Z, float64Less (H:=Float64_Z) x y = true →
              float64Less (H:=Float64_Z) y x = false) ∧
  (∀ x y z : Z, notAfter (H:=Float64_Z) x y → notAfter (H:=Float64_Z) y z →
                notAfter (H:=Float64_Z) x z) ∧
  ¬ (∃ v e, out = Returns v (Some e)) ∧
  ∃ sorted,
    sorted ≡ₚ [1; 3; 2] ∧
    StronglySorted (notAfter (H:=Float64_Z)) sorted ∧
    ∃ m, sorted !! 1%nat = Some m ∧ out = Returns m None.
Proof.
  intros c out.
  split; [exact Float64_Z_less_asym|]. split; [exact Float64_Z_notAfter_trans|].
  destruct (queryOffset_median (H:=Float64_Z) sampleQuery sampleValidate id
              Float64_Z_less_asym Float64_Z_notAfter_trans () c)
    as [Herror Hmedian].
  split.
  - intros Herr. apply Herror in Herr. by inversion Herr.
  - destruct Hmedian as (sorted & Hperm & Hsorted & Hodd & _).
    { by apply Exists_cons_hd. }
    exists sorted. split; [exact Hperm|]. split; [exact Hsorted|].
    apply Permutation_length in Hperm. cbn in Hperm.
    rewrite Hperm in Hodd. by apply Hodd.
Defined.

(** A run on binary64 numbers, the offsets being a quarter and half a
    second: with two answers, the mean of both. *)
Example queryOffset_binary64 :
  (queryOffset (H:=Float64_binary64) sampleQuery sampleValidate
     (λ r, if r =? 1 then 0.25%float else 0.5%float)
     () (sampleCheck ["down"; "bb"; "a"])).2 = Returns 0.375%float None.
Proof. vm_compute. reflexivity. Qed.

(** No host answers: the error, and the failure counter goes up. *)
Example queryOffset_no_answer :
  queryOffset (H:=Float64_Z) sampleQuery sampleValidate id
    () (sampleCheck ["down"; "down"]) =
  ((), mkNTPCheck (cfg (sampleCheck ["down"; "down"])) 2,
   Returns 0 (Some "Failed to get clock offset from any ntp host")).
Proof. reflexivity. Qed.

(** Nothing is set in the configuration file, and no cloud provider is
    detected. *)
Lemma parse_defaults_witness :
  let unmarshalInstance := λ _ : list Byte.byte, Ok (mkInstance 0 "" None 0 0 0 false) in
  let unmarshalInitConf := λ _ : list Byte.byte, Ok mkInitConfig in
  let c := mkConfig (mkInstance 0 "" None 0 0 0 false) mkInitConfig in
  let c' := mkConfig (mkInstance 60 "" googleNTPHosts 123 5 3 false) mkInitConfig in
  parse unmarshalInstance unmarshalInitConf noCloud c [] [] (Ok None) = (c', None) ∧
  Port (instance c') = 123 ∧ Version (instance c') = 3 ∧
  Timeout (instance c') = 5 ∧ OffsetThreshold (instance c') = 60 ∧
  Hosts (instance c') = getCloudProviderNTPHosts noCloud.
Proof.
  intros unmarshalInstance unmarshalInitConf c c'.
  split; [reflexivity|].
  destruct (parse_defaults unmarshalInstance unmarshalInitConf noCloud
              c [] [] (Ok None) c' eq_refl)
    as (inst & Hinst & HP & HV & HT & HO & _ & _ & _ & _ & HH).
  injection Hinst as <-.
  split; [by apply HP|]. split; [by apply HV|].
  split; [by apply HT|]. split; [by apply HO|].
  apply HH; [by left | done | done].
Defined.

(** [host: a] together with [hosts: [b, a, b, c]]. *)
Lemma parse_host_first_witness :
  let inst := mkInstance 0 "a" (Some ["b"; "a"; "b"; "c"]) 0 0 0 false in
  let unmarshalInstance := λ _ : list Byte.byte, Ok inst in
  let unmarshalInitConf := λ _ : list Byte.byte, Ok mkInitConfig in
  let c := mkConfig (mkInstance 0 "" None 0 0 0 false) mkInitConfig in
  unmarshalInstance [] = Ok inst ∧
  unmarshalInitConf [] = Ok mkInitConfig ∧
  noLocalServers inst (Ok None) ∧
  Host inst ≠ "" ∧
  ∃ c',
    parse unmarshalInstance unmarshalInitConf noCloud c [] [] (Ok None) = (c', None) ∧
    Hosts (instance c') = Some ["a"; "b"; "b"; "c"] ∧
    occurrences "a" ["a"; "b"; "b"; "c"] = 1%nat ∧
    occurrences "b" ["a"; "b"; "b"; "c"] = 2%nat.
Proof.
  intros inst unmarshalInstance unmarshalInitConf c.
  assert (noLocalServers inst (Ok None)) as Hlocal by (by left).
  assert (Host inst ≠ "") as Hhost by done.
  split; [reflexivity|]. split; [reflexivity|].
  split; [exact Hlocal|]. split; [exact Hhost|].
  destruct (parse_host_first unmarshalInstance unmarshalInitConf noCloud
              c [] [] (Ok None) inst mkInitConfig eq_refl eq_refl Hlocal Hhost)
    as (c' & Hparse & Hhosts & Honce & Hothers).
  exists c'. split; [exact Hparse|]. split; [exact Hhosts|].
  split; [exact Honce|]. exact (Hothers "b" ltac:(done)).
Defined.

(* ================================================================== *)
(** * Further properties of the configuration *)
(* ================================================================== *)

(** The default host list is one of the six package lists, none of
    which is empty. *)
Lemma getCloudProviderNTPHosts_cases env :
  getCloudProviderNTPHosts env ∈
    [awsNTPHosts; gcpNTPHosts; azureNTPHosts; alibabaNTPHosts;
     tencentNTPHosts; googleNTPHosts].
Proof.
  unfold getCloudProviderNTPHosts.
  destruct (ec2 env || ecs env), (gce env), (azure env), (alibaba env),
    (tencent env); set_solver.
Qed.

Lemma defaultHosts_cons env :
  ∃ host hosts, getCloudProviderNTPHosts env = Some (host :: hosts).
Proof.
  pose proof (getCloudProviderNTPHosts_cases env) as Hcases.
  repeat (apply elem_of_cons in Hcases as [-> | Hcases]; [by eexists _, _|]).
  by apply not_elem_of_nil in Hcases.
Qed.

(** X7: Whatever the detection helpers answer, the default host list holds
    at least one host, and none of its hosts is the empty name. *)
Theorem getCloudProviderNTPHosts_nonempty env :
  0 < len (getCloudProviderNTPHosts env) ∧
  Forall (λ host, host ≠ "") (elems (getCloudProviderNTPHosts env)).
Proof.
  pose proof (getCloudProviderNTPHosts_cases env) as Hcases.
  repeat (apply elem_of_cons in Hcases as [-> | Hcases];
          [split; [reflexivity | repeat constructor; discriminate]|]).
  by apply not_elem_of_nil in Hcases.
Qed.

(** X8: AWS wins over every other provider, and the Datadog pool is used
    exactly when no provider is detected. *)
Theorem getCloudProviderNTPHosts_precedence env :
  (getCloudProviderNTPHosts env = awsNTPHosts ↔ ec2 env || ecs env = true) ∧
  (getCloudProviderNTPHosts env = googleNTPHosts ↔
     ec2 env = false ∧ ecs env = false ∧ gce env = false ∧ azure env = false ∧
     alibaba env = false ∧ tencent env = false).
Proof.
  unfold getCloudProviderNTPHosts.
  destruct (ec2 env), (ecs env), (gce env), (azure env), (alibaba env),
    (tencent env); cbn; split; split; (done || intuition discriminate).
Qed.

(** Filtering out [host] twice is filtering it out once. *)
Lemma filter_other_idemp (host : string) (l : list string) :
  filter (λ h, h ≠ host) (filter (λ h, h ≠ host) l) = filter (λ h, h ≠ host) l.
Proof.
  induction l as [|h rest IH]; [done|].
  rewrite (filter_cons _ h rest). destruct (decide (h ≠ host)) as [Hne|Heq].
  - rewrite filter_cons. destruct (decide (h ≠ host)); [by rewrite IH | done].
  - exact IH.
Qed.

(** Replacing zero by a default that is not zero, twice, is replacing
    it once. *)
Lemma default_idemp (d x : Z) :
  d ≠ 0 →
  (if (if x =? 0 then d else x) =? 0 then d else if x =? 0 then d else x) =
  (if x =? 0 then d else x).
Proof.
  intros Hd. destruct (x =? 0) eqn:Hx.
  - by rewrite (proj2 (Z.eqb_neq d 0) Hd).
  - by rewrite Hx.
Qed.

Lemma default_nonzero (d x : Z) : d ≠ 0 → (if x =? 0 then d else x) ≠ 0.
Proof. intros Hd. destruct (x =? 0) eqn:Hx; [done | by apply Z.eqb_neq]. Qed.

(** The host list [parse] settles on is never nil. *)
Lemma hosts_not_nil env (servers : slice string) inst :
  (if 0 <? len servers then servers
   else if decide (Host inst ≠ "") then
     Some (Host inst :: filter (λ h, h ≠ Host inst) (elems (Hosts inst)))
   else if Hosts inst is None then getCloudProviderNTPHosts env
   else Hosts inst) ≠ None.
Proof.
  destruct (defaultHosts_cons env) as (d & ds & ->).
  destruct servers as [[|server ls]|]; [| done |];
    (change (0 <? len (@None (list string))) with false ||
     change (0 <? len (Some (@nil string))) with false);
    destruct (decide (Host inst ≠ "")); try done; by destruct (Hosts inst).
Qed.

(** Reads the fields of an instance through the assignments made to
    it. *)
Ltac instance_fields :=
  cbn [setHosts setPort setVersion setTimeout setOffsetThreshold
       Host Hosts Port Version Timeout OffsetThreshold UseLocalDefinedServers].

Section ParseMore.

Variable unmarshalInstance : list Byte.byte → result ntpInstanceConfig.
Variable unmarshalInitConf : list Byte.byte → result ntpInitConfig.
Variable env : CloudEnv.

Let parse := net.parse unmarshalInstance unmarshalInitConf env.

(** The host list [parse] settles on before the defaults of the numeric
    fields, as a function of the decoded instance and the local
    servers. *)
Lemma parse_success c data initData (getLocalServers : result (slice string))
    inst ic (servers : slice string) :
  unmarshalInstance data = Ok inst →
  unmarshalInitConf initData = Ok ic →
  (if UseLocalDefinedServers inst then getLocalServers else Ok None) = Ok servers →
  ∃ c',
    parse c data initData getLocalServers = (c', None) ∧
    initConf c' = ic ∧
    Host (instance c') = Host inst ∧
    UseLocalDefinedServers (instance c') = UseLocalDefinedServers inst ∧
    Port (instance c') = (if Port inst =? 0 then 123 else Port inst) ∧
    Version (instance c') = (if Version inst =? 0 then 3 else Version inst) ∧
    Timeout (instance c') = (if Timeout inst =? 0 then 5 else Timeout inst) ∧
    OffsetThreshold (instance c') =
      (if OffsetThreshold inst =? 0 then 60 else OffsetThreshold inst) ∧
    Hosts (instance c') =
      (if 0 <? len servers then servers
       else if decide (Host inst ≠ "") then
         Some (Host inst :: filter (λ h, h ≠ Host inst) (elems (Hosts inst)))
       else if Hosts inst is None then getCloudProviderNTPHosts env
       else Hosts inst).
Proof.
  intros Hinst Hic Hcall. unfold parse, net.parse.
  rewrite Hinst, Hic. cbn [instance initConf]. rewrite Hcall.
  eexists. split; [reflexivity|]. cbn [instance initConf].
  rewrite appendOtherHosts_filter. cbn [app].
  destruct inst as [threshold host hosts port timeout version useLocal].
  cbn [Host Hosts Port Version Timeout OffsetThreshold UseLocalDefinedServers].
  clear Hcall Hinst. generalize (getCloudProviderNTPHosts env). intros defaults.
  destruct servers as [[|server ls]|];
    change (0 <? len (@None (list string))) with false;
    change (0 <? len (Some (@nil string))) with false;
    try change (0 <? len (Some (server :: ls))) with true;
    destruct (decide (host ≠ "")), hosts as [hs|], defaults as [ds|];
    instance_fields; destruct (port =? 0);
    instance_fields; destruct (version =? 0);
    instance_fields; destruct (timeout =? 0);
    instance_fields; destruct (threshold =? 0);
    instance_fields; repeat split; reflexivity.
Qed.

(** A [parse] that returns [nil] went through the three fallible
    calls. *)
Lemma parse_success_inv c data initData (getLocalServers : result (slice string)) c' :
  parse c data initData getLocalServers = (c', None) →
  ∃ inst ic (servers : slice string),
    unmarshalInstance data = Ok inst ∧
    unmarshalInitConf initData = Ok ic ∧
    (if UseLocalDefinedServers inst then getLocalServers else Ok None) = Ok servers.
Proof.
  unfold parse, net.parse.
  destruct (unmarshalInstance data) as [inst|]; [|done].
  destruct (unmarshalInitConf initData) as [ic|]; [|done].
  cbn [instance initConf].
  destruct (if UseLocalDefinedServers inst then _ else _) as [servers|] eqn:Hcall;
    [|done].
  intros _. by exists inst, ic, servers.
Qed.

(** X1: [parse] fails in exactly three ways, each with the error of the
    call that failed: the instance does not decode, or the init
    configuration does not decode, and the receiver is left as it was;
    or the local servers are asked for and cannot be listed, and the
    receiver holds the decoded instance, without any default, beside its
    former init configuration. *)
Theorem parse_error_cases c data initData (getLocalServers : result (slice string))
    c' e :
  parse c data initData getLocalServers = (c', Some e) ↔
  (unmarshalInstance data = Err e ∧ c' = c) ∨
  (∃ inst, unmarshalInstance data = Ok inst ∧
           unmarshalInitConf initData = Err e ∧ c' = c) ∨
  (∃ inst ic, unmarshalInstance data = Ok inst ∧
              unmarshalInitConf initData = Ok ic ∧
              UseLocalDefinedServers inst = true ∧
              getLocalServers = Err e ∧
              c' = mkConfig inst (initConf c)).
Proof.
  unfold parse, net.parse.
  destruct (unmarshalInstance data) as [inst|e1].
  2:{ split; [intros [= <- <-]; by left|].
      intros [[[= ->] ->]|[(? & [=] & _)|(? & ? & [=] & _)]]. done. }
  destruct (unmarshalInitConf initData) as [ic|e2].
  2:{ split; [intros [= <- <-]; right; left; by exists inst|].
      intros [[[=] _]|[(? & _ & [= ->] & ->)|(? & ? & _ & [=] & _)]]. done. }
  cbn [instance initConf].
  destruct (UseLocalDefinedServers inst) eqn:Hlocal;
    [destruct getLocalServers as [servers|e3]|].
  - split; [intros [=]|].
    intros [[[=] _]|[(? & _ & [=] & _)|(? & ? & _ & _ & _ & [=] & _)]].
  - split; [intros [= <- <-]; right; right; by exists inst, ic|].
    intros [[[=] _]|[(? & _ & [=] & _)|(? & ? & [= <-] & _ & _ & [= ->] & ->)]].
    done.
  - split; [intros [=]|].
    intros [[[=] _]|[(? & _ & [=] & _)|(? & ? & [= <-] & _ & Htrue & _)]].
    congruence.
Qed.

(** X2: After a successful [parse] no numeric field is zero and the host
    list is not nil. *)
Theorem parse_normalises c data initData (getLocalServers : result (slice string)) c' :
  parse c data initData getLocalServers = (c', None) →
  Port (instance c') ≠ 0 ∧ Version (instance c') ≠ 0 ∧
  Timeout (instance c') ≠ 0 ∧ OffsetThreshold (instance c') ≠ 0 ∧
  Hosts (instance c') ≠ None.
Proof.
  intros Hparse.
  destruct (parse_success_inv _ _ _ _ _ Hparse)
    as (inst & ic & servers & Hinst & Hic & Hcall).
  destruct (parse_success c data initData getLocalServers _ _ _ Hinst Hic Hcall)
    as (c'' & Hparse' & _ & _ & _ & HP & HV & HT & HO & HH).
  rewrite Hparse in Hparse'. injection Hparse' as <-.
  rewrite HP, HV, HT, HO, HH.
  repeat split; try (by apply default_nonzero).
  apply hosts_not_nil.
Qed.

(** X3: Local servers, when asked for and found, are the host list: [Host]
    and [Hosts] of the configuration are not consulted. *)
Theorem parse_local_servers_override c data initData inst ic (servers : slice string) :
  unmarshalInstance data = Ok inst →
  unmarshalInitConf initData = Ok ic →
  UseLocalDefinedServers inst = true →
  0 < len servers →
  ∃ c', parse c data initData (Ok servers) = (c', None) ∧
        Hosts (instance c') = servers.
Proof.
  intros Hinst Hic Hlocal Hlen.
  destruct (parse_success c data initData (Ok servers) inst ic servers Hinst Hic)
    as (c' & Hparse & _ & _ & _ & _ & _ & _ & _ & HH); [by rewrite Hlocal|].
  exists c'. split; [done|]. rewrite HH.
  by rewrite (proj2 (Z.ltb_lt 0 (len servers)) Hlen).
Qed.

(** X4: Without local servers and without [Host], a host list that is not
    nil is kept as it is, the empty one included: the default hosts
    replace only a nil list. *)
Theorem parse_hosts_kept c data initData getLocalServers inst ic hosts :
  unmarshalInstance data = Ok inst →
  unmarshalInitConf initData = Ok ic →
  noLocalServers inst getLocalServers →
  Host inst = "" →
  Hosts inst = Some hosts →
  ∃ c', parse c data initData getLocalServers = (c', None) ∧
        Hosts (instance c') = Some hosts.
Proof.
  intros Hinst Hic Hlocal Hhost Hhosts.
  assert (∃ servers : slice string,
            (if UseLocalDefinedServers inst then getLocalServers else Ok None) =
            Ok servers) as [servers Hcall].
  { destruct Hlocal as [->|(l & -> & _)]; [by eexists|].
    destruct (UseLocalDefinedServers inst); by eexists. }
  destruct (parse_success c data initData getLocalServers inst ic servers
              Hinst Hic Hcall)
    as (c' & Hparse & _ & _ & _ & _ & _ & _ & _ & HH).
  exists c'. split; [done|]. rewrite HH.
  rewrite (noLocalServers_len _ _ _ Hlocal Hcall), Hhost, Hhosts.
  by destruct (decide ("" ≠ "")).
Qed.

(** X5: A successful [parse] ends with an empty host list only when the
    configuration gives no [Host] and an empty, not nil, list of
    hosts. *)
Theorem parse_empty_hosts c data initData (getLocalServers : result (slice string)) c' :
  parse c data initData getLocalServers = (c', None) →
  Hosts (instance c') = Some [] →
  ∃ inst, unmarshalInstance data = Ok inst ∧
          Host inst = "" ∧ Hosts inst = Some [].
Proof.
  intros Hparse Hempty.
  destruct (parse_success_inv _ _ _ _ _ Hparse)
    as (inst & ic & servers & Hinst & Hic & Hcall).
  destruct (parse_success c data initData getLocalServers _ _ _ Hinst Hic Hcall)
    as (c'' & Hparse' & _ & _ & _ & _ & _ & _ & _ & HH).
  rewrite Hparse in Hparse'. injection Hparse' as <-.
  rewrite HH in Hempty. exists inst. split; [done|].
  destruct (defaultHosts_cons env) as (d & ds & Hd).
  rewrite Hd in Hempty.
  destruct servers as [[|server ls]|]; [| done |];
    (change (0 <? len (@None (list string))) with false in Hempty ||
     change (0 <? len (Some (@nil string))) with false in Hempty);
    destruct (decide (Host inst ≠ "")) as [|Hhost]; try done;
    apply dec_stable in Hhost; by destruct (Hosts inst).
Qed.

(** X6: Parsing what a successful [parse] produced changes nothing: with the
    same local servers, a configuration that decodes to the instance of
    the first result gives that instance again. *)
Theorem parse_idempotent c data initData (getLocalServers : result (slice string))
    c' c2 data2 initData2 ic2 :
  parse c data initData getLocalServers = (c', None) →
  unmarshalInstance data2 = Ok (instance c') →
  unmarshalInitConf initData2 = Ok ic2 →
  parse c2 data2 initData2 getLocalServers = (mkConfig (instance c') ic2, None).
Proof.
  intros Hparse Hinst2 Hic2.
  destruct (parse_success_inv _ _ _ _ _ Hparse)
    as (inst & ic & servers & Hinst & Hic & Hcall).
  destruct (parse_success c data initData getLocalServers _ _ _ Hinst Hic Hcall)
    as (c'' & Hparse' & _ & Hhost & Hlocal & HP & HV & HT & HO & HH).
  rewrite Hparse in Hparse'. injection Hparse' as <-.
  assert ((if UseLocalDefinedServers (instance c') then getLocalServers
           else Ok None) = Ok servers) as Hcall2 by by rewrite Hlocal.
  destruct (parse_success c2 data2 initData2 getLocalServers _ _ _
              Hinst2 Hic2 Hcall2)
    as (c3 & Hparse3 & Hic3 & Hhost3 & Hlocal3 & HP3 & HV3 & HT3 & HO3 & HH3).
  rewrite Hparse3. f_equal.
  assert (instance c3 = instance c') as Heq; [|destruct c3; cbn in *; congruence].
  assert (Port (instance c3) = Port (instance c')) as HP'.
  { rewrite HP3, HP. by apply default_idemp. }
  assert (Version (instance c3) = Version (instance c')) as HV'.
  { rewrite HV3, HV. by apply default_idemp. }
  assert (Timeout (instance c3) = Timeout (instance c')) as HT'.
  { rewrite HT3, HT. by apply default_idemp. }
  assert (OffsetThreshold (instance c3) = OffsetThreshold (instance c')) as HO'.
  { rewrite HO3, HO. by apply default_idemp. }
  assert (Hosts (instance c3) = Hosts (instance c')) as HH'.
  { rewrite HH3. destruct (0 <? len servers) eqn:Hlen; [by rewrite HH|].
    rewrite Hhost, HH, ?Hlen.
    destruct (decide (Host inst ≠ "")) as [Hne|Hne].
    - unfold elems at 1. cbn [from_option id]. rewrite filter_cons.
      destruct (decide (Host inst ≠ Host inst)); [done|].
      by rewrite filter_other_idemp.
    - destruct (defaultHosts_cons env) as (d & ds & Hd).
      destruct (Hosts inst); [done|]. by rewrite Hd. }
  destruct (instance c3), (instance c'); cbn in *; congruence.
Qed.

End ParseMore.

(* ================================================================== *)
(** * Further properties of the clock offset *)
(* ================================================================== *)

(** One failed query more: the counter goes up to ten and then starts
    again from zero. *)
Lemma errCount_step (n : Z) :
  0 ≤ n ≤ 10 → (if 10 <=? n then 0 else n + 1) = (n + 1) mod 11.
Proof.
  intros Hn. destruct (10 <=? n) eqn:Hten.
  - apply Z.leb_le in Hten. by replace n with 10 by lia.
  - apply Z.leb_gt in Hten. by rewrite Z.mod_small by lia.
Qed.

Section QueryOffsetMore.

Context {F : Type} `{Float64 F}.
Context {World Response : Type}.
Variable ntpQuery : World → string → QueryOptions → World * result Response.
Variable Validate : Response → option error.
Variable ClockOffsetSeconds : Response → F.

Let answers := net.answers ntpQuery.
Let collected := net.collected Validate ClockOffsetSeconds.
Let usable := net.usable Validate.
Let queryHosts := net.queryHosts ntpQuery Validate ClockOffsetSeconds.
Let queryOffset := net.queryOffset ntpQuery Validate ClockOffsetSeconds.

(** What [queryOffset] returns, by cases on the offsets collected. *)
Lemma queryOffset_cases w c :
  let hosts := elems (Hosts (instance (cfg c))) in
  let rs := answers (queryOptions c) hosts w in
  let sorted := sortFloat64s (collected rs) in
  ∃ w' n',
    queryHosts (queryOptions c) hosts w (errCount c) [] = (w', n', collected rs) ∧
    ((collected rs = [] ∧
      queryOffset w c =
        (w', mkNTPCheck (cfg c) n',
         Returns fzero (Some "Failed to get clock offset from any ntp host"))) ∨
     (collected rs ≠ [] ∧
      ∃ v, queryOffset w c = (w', mkNTPCheck (cfg c) n', Returns v None) ∧
           ((length sorted mod 2 = 1)%nat →
              sorted !! (length sorted / 2)%nat = Some v) ∧
           ((length sorted mod 2 = 0)%nat →
              ∃ a b, sorted !! (length sorted / 2 - 1)%nat = Some a ∧
                     sorted !! (length sorted / 2)%nat = Some b ∧
                     v = fdiv (fadd a b) ftwo))).
Proof.
  intros hosts rs sorted. unfold queryOffset, net.queryOffset.
  pose proof (queryHosts_offsets ntpQuery Validate ClockOffsetSeconds
                (queryOptions c) hosts w (errCount c) []) as Hoffsets.
  fold hosts. unfold queryHosts.
  destruct (net.queryHosts _ _ _ _ _ _ _ _) as [[w' n'] offsets].
  cbn [snd app] in Hoffsets. fold answers collected rs in Hoffsets.
  subst offsets. exists w', n'. split; [done|].
  destruct (len (Some (collected rs)) =? 0) eqn:Hzero.
  - left. apply Z.eqb_eq in Hzero. split; [|done].
    destruct (collected rs); [done | unfold len in Hzero; cbn in Hzero; lia].
  - right. apply Z.eqb_neq in Hzero.
    assert (collected rs ≠ []) as Hne by (intros Heq; by rewrite Heq in Hzero).
    split; [done|].
    assert (sorted ≠ []) as Hne'.
    { intros Heq. pose proof (merge_sort_Permutation notAfter (collected rs)) as Hp.
      fold (sortFloat64s (collected rs)) in Hp. fold sorted in Hp.
      rewrite Heq in Hp. by apply Permutation_nil_l in Hp. }
    destruct (median_returns w' (mkNTPCheck (cfg c) n') _ Hne')
      as (v & Hout & Hodd & Heven).
    exists v. cbv zeta. fold sorted. by rewrite Hout.
Qed.

(** X9: With no host to query, [queryOffset] fails at once: no query is
    made, and the check is left as it was. *)
Theorem queryOffset_no_hosts w c :
  elems (Hosts (instance (cfg c))) = [] →
  queryOffset w c =
    (w, c, Returns fzero (Some "Failed to get clock offset from any ntp host")).
Proof.
  intros Hhosts. unfold queryOffset, net.queryOffset. rewrite Hhosts.
  cbn. by destruct c.
Qed.

(** The counter after [queryOffset] is the one the loop ends with. *)
Lemma queryOffset_errCount w c :
  errCount (queryOffset w c).1.2 =
  (queryHosts (queryOptions c) (elems (Hosts (instance (cfg c)))) w
     (errCount c) []).1.2.
Proof.
  destruct (queryOffset_cases w c) as (w' & n' & Hloop & Hcases).
  cbv zeta in Hloop. rewrite Hloop.
  destruct Hcases as [[_ ->]|(_ & v & -> & _)]; done.
Qed.

Lemma queryHosts_errCount_bounds opts hosts w n offsets :
  0 ≤ n ≤ 10 → 0 ≤ (queryHosts opts hosts w n offsets).1.2 ≤ 10.
Proof.
  unfold queryHosts. revert w n offsets.
  induction hosts as [|host hosts IH]; intros w n offsets Hn;
    cbn [net.queryHosts]; [done|].
  destruct (ntpQuery w host opts) as [w1 [response|e]].
  - destruct (Validate response); apply IH; lia.
  - destruct (10 <=? n) eqn:Hten; apply IH; [lia|].
    apply Z.leb_gt in Hten. lia.
Qed.

Lemma queryHosts_errCount_failures opts hosts w n offsets :
  0 ≤ n ≤ 10 →
  Forall (λ r, ∃ e, r = Err e) (answers opts hosts w) →
  (queryHosts opts hosts w n offsets).1.2 =
    (n + Z.of_nat (length hosts)) mod 11.
Proof.
  unfold queryHosts, answers. revert w n offsets.
  induction hosts as [|host hosts IH]; intros w n offsets Hn Hfail;
    cbn [net.queryHosts net.answers length] in *.
  - cbn [fst snd]. rewrite Z.add_0_r, Z.mod_small; lia.
  - destruct (ntpQuery w host opts) as [w1 [response|e]].
    + apply Forall_cons in Hfail as [[? [=]] _].
    + apply Forall_cons in Hfail as [_ Hfail].
      pose proof (errCount_step n Hn) as Hstep.
      pose proof (Z.mod_pos_bound (n + 1) 11 ltac:(lia)) as Hbound.
      transitivity (((n + 1) mod 11 + Z.of_nat (length hosts)) mod 11).
      * rewrite <- Hstep.
        destruct (10 <=? n); apply IH; try done; rewrite Hstep; lia.
      * rewrite Zplus_mod_idemp_l. f_equal. lia.
Qed.

Lemma queryHosts_errCount_reset opts hosts w n offsets rs response :
  answers opts hosts w = rs ++ [Ok response] →
  (queryHosts opts hosts w n offsets).1.2 = 0.
Proof.
  unfold queryHosts, answers. revert w n offsets rs.
  induction hosts as [|host hosts IH]; intros w n offsets rs Hlast;
    cbn [net.queryHosts net.answers] in *.
  - by destruct rs.
  - destruct (ntpQuery w host opts) as [w1 r] eqn:Hquery.
    destruct hosts as [|host' hosts].
    + cbn [net.answers] in Hlast.
      destruct rs as [|? [|? ?]]; try done. injection Hlast as ->.
      cbn [net.queryHosts]. by destruct (Validate response).
    + destruct rs as [|r' rs].
      { cbn [net.answers app] in Hlast.
        destruct (ntpQuery w1 host' opts). done. }
      injection Hlast as -> Hlast.
      destruct r' as [response'|e].
      * destruct (Validate response'); eapply IH; eauto.
      * destruct (10 <=? n); eapply IH; eauto.
Qed.

(** X10: The failure counter stays between 0 and 10. *)
Theorem queryOffset_errCount_bounds w c :
  0 ≤ errCount c ≤ 10 →
  0 ≤ errCount (queryOffset w c).1.2 ≤ 10.
Proof.
  intros Hn. rewrite queryOffset_errCount. by apply queryHosts_errCount_bounds.
Qed.

(** X11: When every query fails, the counter advances by the number of hosts,
    modulo 11. *)
Theorem queryOffset_errCount_failures w c :
  0 ≤ errCount c ≤ 10 →
  Forall (λ r, ∃ e, r = Err e)
    (answers (queryOptions c) (elems (Hosts (instance (cfg c)))) w) →
  errCount (queryOffset w c).1.2 =
    (errCount c + Z.of_nat (length (elems (Hosts (instance (cfg c)))))) mod 11.
Proof.
  intros Hn Hfail. rewrite queryOffset_errCount.
  by apply queryHosts_errCount_failures.
Qed.

(** X12: When the last host answers the query, whether or not its response
    is valid, the counter is back to zero. *)
Theorem queryOffset_errCount_reset w c rs response :
  answers (queryOptions c) (elems (Hosts (instance (cfg c)))) w =
    rs ++ [Ok response] →
  errCount (queryOffset w c).1.2 = 0.
Proof.
  intros Hlast. rewrite queryOffset_errCount.
  by eapply queryHosts_errCount_reset.
Qed.

(** X13: With a single answer that counts, its offset is returned as it
    is. *)
Theorem queryOffset_single w c offset :
  collected (answers (queryOptions c) (elems (Hosts (instance (cfg c)))) w) =
    [offset] →
  (queryOffset w c).2 = Returns offset None.
Proof.
  intros Hone.
  destruct (queryOffset_cases w c) as (w' & n' & _ & Hcases).
  rewrite Hone in Hcases. cbv zeta in Hcases.
  destruct Hcases as [[[=] _]|(_ & v & -> & Hodd & _)].
  cbn in Hodd. specialize (Hodd eq_refl). by injection Hodd as ->.
Qed.

End QueryOffsetMore.

Section MedianOrder.

Context {F : Type} `{Float64 F}.
Context {World Response : Type}.
Variable ntpQuery : World → string → QueryOptions → World * result Response.
Variable Validate : Response → option error.
Variable ClockOffsetSeconds : Response → F.

Let answers := net.answers ntpQuery.
Let collected := net.collected Validate ClockOffsetSeconds.
Let queryOffset := net.queryOffset ntpQuery Validate ClockOffsetSeconds.

Hypothesis less_asym : ∀ x y : F, float64Less x y = true → float64Less y x = false.
Hypothesis notAfter_trans : ∀ x y z : F, notAfter x y → notAfter y z → notAfter x z.

(** X14: The returned offset splits the collected offsets in two halves of
    equal size: as many offsets are not after it as it is not after.
    With an odd number of offsets it is the offset [m] left in the
    middle; with an even number it is computed from the two offsets [a]
    and [b] left in the middle. *)
Theorem queryOffset_median_splits w c :
  let rs := answers (queryOptions c) (elems (Hosts (instance (cfg c)))) w in
  let out := (queryOffset w c).2 in
  collected rs ≠ [] →
  ∃ lower upper,
    length lower = length upper ∧
    ((∃ m, collected rs ≡ₚ lower ++ m :: upper ∧
           Forall (λ x, notAfter x m) lower ∧ Forall (notAfter m) upper ∧
           out = Returns m None) ∨
     (∃ a b, collected rs ≡ₚ lower ++ a :: b :: upper ∧
             Forall (λ x, notAfter x a) lower ∧ notAfter a b ∧
             Forall (notAfter b) upper ∧
             out = Returns (fdiv (fadd a b) ftwo) None)).
Proof.
  intros rs out Hne. subst out.
  destruct (queryOffset_cases ntpQuery Validate ClockOffsetSeconds w c)
    as (w' & n' & _ & [[Hnil _]|(_ & v & Hout & Hodd & Heven)]); [done|].
  fold queryOffset in Hout. rewrite Hout. cbn [snd].
  fold answers collected rs in Hodd, Heven.
  destruct (sortFloat64s_sorted less_asym notAfter_trans (collected rs))
    as [Hsorted Hperm].
  set (sorted := sortFloat64s (collected rs)) in *.
  pose proof (Nat.div_mod_eq (length sorted) 2) as Hdm.
  pose proof (Nat.mod_upper_bound (length sorted) 2 ltac:(lia)) as Hm.
  assert (0 < length sorted)%nat as Hpos.
  { rewrite (Permutation_length Hperm). destruct (collected rs); [done|cbn; lia]. }
  destruct (decide (length sorted mod 2 = 1)%nat) as [Hparity|Hparity].
  - (* odd *)
    specialize (Hodd Hparity).
    pose proof (take_drop_middle _ _ _ Hodd) as Hsplit.
    exists (take (length sorted / 2) sorted), (drop (S (length sorted / 2)) sorted).
    split; [rewrite length_take, length_drop; lia|].
    left. exists v. rewrite Hsplit. split; [done|].
    rewrite <- Hsplit in Hsorted.
    split; [|split; [|done]].
    + apply Forall_forall. intros x Hx.
      apply (StronglySorted_app_1_elem_of _ _ _ _ _ Hsorted Hx). by left.
    + apply StronglySorted_app_1_r, StronglySorted_cons in Hsorted. tauto.
  - (* even *)
    destruct Heven as (a & b & Ha & Hb & ->); [lia|].
    pose proof (take_drop_middle _ _ _ Ha) as Hsplit.
    replace (S (length sorted / 2 - 1)) with (length sorted / 2)%nat
      in Hsplit by lia.
    rewrite (drop_S _ _ _ Hb) in Hsplit.
    exists (take (length sorted / 2 - 1) sorted),
           (drop (S (length sorted / 2)) sorted).
    split; [rewrite length_take, length_drop; lia|].
    right. exists a, b. rewrite Hsplit. split; [done|].
    rewrite <- Hsplit in Hsorted.
    split; [|split; [|split; [|done]]].
    + apply Forall_forall. intros x Hx.
      apply (StronglySorted_app_1_elem_of _ _ _ _ _ Hsorted Hx). by left.
    + apply StronglySorted_app_1_r, StronglySorted_cons in Hsorted.
      destruct Hsorted as [Hab _]. by apply Forall_cons in Hab as [Hab _].
    + apply StronglySorted_app_1_r, StronglySorted_cons in Hsorted.
      destruct Hsorted as [_ Hb']. apply StronglySorted_cons in Hb'. tauto.
Qed.

(** Two offsets each not after the other are the same number. *)
Hypothesis notAfter_antisym : ∀ x y : F, notAfter x y → notAfter y x → x = y.


End MedianOrder.

(** X16: The duration of the query timeout is the configured number of
    seconds as long as it fits 64 bits of nanoseconds. *)
Theorem queryOptions_timeout c :
  -9223372036 ≤ Timeout (instance (cfg c)) ≤ 9223372036 →
  QTimeout (queryOptions c) = Timeout (instance (cfg c)) * 1000000000.
Proof.
  intros Hrange. unfold queryOptions, wrap64, Second. cbn [QTimeout].
  rewrite Z.mod_small; lia.
Qed.

(* ================================================================== *)
(** * Running and configuring the check *)
(* ================================================================== *)

(** Goes through the emissions one by one to refute that [Hin] is among
    them. *)
Ltac emitted Hin :=
  repeat (apply elem_of_cons in Hin as [Hin|Hin]; [discriminate Hin|]);
  by apply not_elem_of_nil in Hin.

Section RunFacts.

Context {F : Type} `{Float64 F}.
Context {World Response Time : Type}.
Variable ntpQuery : World → string → QueryOptions → World * result Response.
Variable Validate : Response → option error.
Variable ClockOffsetSeconds : Response → F.
Variable fabs : F → F.
Variable toInt : F → Z.
Variable formatFloat : F → string.
Variable formatInt : Z → string.

Let answers := net.answers ntpQuery.
Let collected := net.collected Validate ClockOffsetSeconds.
Let usable := net.usable Validate.
Let queryOffset := net.queryOffset ntpQuery Validate ClockOffsetSeconds.
Let Run := net.Run (Time:=Time) ntpQuery Validate ClockOffsetSeconds
             fabs toInt formatFloat formatInt.

(** Some offset is collected exactly when some answer counts. *)
Lemma collected_cons rs :
  collected rs ≠ [] ↔ Exists (λ r, usable r = true) rs.
Proof.
  unfold collected, usable, net.collected.
  induction rs as [|r rs IH]; cbn [omap list_omap].
  - split; [done | by intros ?%Exists_nil].
  - rewrite Exists_cons. destruct r as [response|e]; cbn [net.usable].
    + destruct (Validate response); [|by intuition].
      rewrite IH. intuition congruence.
    + rewrite IH. intuition congruence.
Qed.

(** [queryOffset] returns a pair: it does not panic, and the error is
    set exactly when nothing was collected. *)
Lemma queryOffset_returns w chk :
  let rs := answers (queryOptions chk) (elems (Hosts (instance (cfg chk)))) w in
  ∃ v err,
    (queryOffset w chk).2 = Returns v err ∧
    (err = None ↔ collected rs ≠ []).
Proof.
  intros rs.
  destruct (queryOffset_cases ntpQuery Validate ClockOffsetSeconds w chk)
    as (w' & n' & _ & Hcases).
  fold queryOffset answers collected in Hcases. fold rs in Hcases.
  destruct Hcases as [[Hnil Hout]|(Hne & v & Hout & _)];
    rewrite Hout; cbn [snd].
  - eexists _, _. split; [done|]. rewrite Hnil. split; done.
  - exists v, None. split; [done|]. split; done.
Qed.


(** X18: With a sender, every run ends with one [ntp.in_sync] service check
    followed by the commit, whatever the hosts answer; before them come
    only the offset gauge and the two package gauges; the time of the
    collection is recorded, and the world and the check are those
    [queryOffset] leaves. *)
Theorem Run_reports_once now w c :
  let '(w', c', emissions, _) := Run None now w c in
  (∃ gauges status message,
     emissions = gauges ++ [ ServiceCheck "ntp.in_sync" status "" None message;
                             Commit ] ∧
     Forall (λ e, ∃ v, e = Gauge "ntp.offset" v "" None ∨ e = ExpVarSet v ∨
                       e = TelemetrySet v) gauges) ∧
  lastCollection c' = now ∧
  (w', check c') = (queryOffset w (check c)).1.
Proof.
  unfold Run, net.Run.
  destruct (queryOffset_returns w (check c)) as (v & err & Hout & _).
  unfold queryOffset in *.
  destruct (net.queryOffset _ _ _ _ _) as [[w' chk] out]. cbn [snd] in Hout.
  subst out. destruct err as [e|]; cbn [fst].
  - split; [|done]. eexists [], _, _. split; [done|]. constructor.
  - destruct (OffsetThreshold _ <? toInt _); cbv beta iota zeta;
      (split; [|done]);
      eexists [_; _; _], _, _; (split; [done|]);
      repeat constructor; eexists; eauto.
Qed.

(** X19: The service check is [Unknown] exactly when no host gave an answer
    that counts, and the offset gauge is emitted exactly when one
    did. *)
Theorem Run_unknown_iff_no_answer now w c :
  let rs :=
    answers (queryOptions (check c))
            (elems (Hosts (instance (cfg (check c))))) w in
  let emissions := (Run None now w c).1.2 in
  ((∃ message, ServiceCheck "ntp.in_sync" ServiceCheckUnknown "" None message
               ∈ emissions) ↔
   Forall (λ r, usable r = false) rs) ∧
  ((∃ v, Gauge "ntp.offset" v "" None ∈ emissions) ↔
   Exists (λ r, usable r = true) rs).
Proof.
  intros rs emissions. subst emissions. unfold Run, net.Run.
  destruct (queryOffset_returns w (check c)) as (v & err & Hout & Herr).
  fold rs in Herr. rewrite collected_cons in Herr.
  pose proof (collected_nil Validate ClockOffsetSeconds rs) as Hnil.
  pose proof (collected_cons rs) as Hcons.
  fold collected usable in Hnil.
  unfold queryOffset in *.
  destruct (net.queryOffset _ _ _ _ _) as [[w' chk] out]. cbn [snd] in Hout.
  subst out. destruct err as [e|]; cbn [fst snd].
  - assert (collected rs = []) as Hempty.
    { destruct (collected rs) as [|o os] eqn:Hc; [done|]. exfalso.
      assert (collected rs ≠ []) as Hne by by rewrite Hc.
      apply (collected_cons rs), Herr in Hne. done. }
    split.
    + split; [intros _; by apply Hnil|]. intros _. exists "".
      apply list_elem_of_here.
    + split; [|intros Hsome; by apply Herr in Hsome].
      intros (v' & Hin). emitted Hin.
  - assert (Exists (λ r, usable r = true) rs) as Hsome by by apply Herr.
    destruct (OffsetThreshold _ <? toInt _); cbv beta iota zeta; cbn [fst snd];
      (split; [split|]).
    1,4: intros (message & Hin); emitted Hin.
    1,3: intros Hall; apply Hnil in Hall; apply Hcons in Hsome; done.
    all: split; [done|]; intros _; exists v; apply list_elem_of_here.
Qed.

(** X20: The status of an emitted service check is never [Warning]; it is
    [Critical] exactly when the whole part of the absolute offset exceeds
    the threshold, and only then comes with a message. *)
Theorem Run_status_threshold getSender now w c name status host tags message :
  ServiceCheck name status host tags message ∈ (Run getSender now w c).1.2 →
  let threshold := OffsetThreshold (instance (cfg (check c))) in
  let out := (queryOffset w (check c)).2 in
  status ≠ ServiceCheckWarning ∧
  (status = ServiceCheckCritical ↔
     ∃ v, out = Returns v None ∧ threshold < toInt (fabs v)) ∧
  (status = ServiceCheckOK ↔
     ∃ v, out = Returns v None ∧ toInt (fabs v) ≤ threshold) ∧
  (message ≠ "" ↔ status = ServiceCheckCritical).
Proof.
  intros Hin threshold out. subst threshold out.
  unfold Run, net.Run in Hin. destruct getSender as [err|].
  { by apply not_elem_of_nil in Hin. }
  destruct (queryOffset_returns w (check c)) as (v & err & Hout & _).
  unfold queryOffset in *.
  destruct (net.queryOffset _ _ _ _ _) as [[w' chk] out]. cbn [snd] in Hout.
  subst out. cbn [snd].
  destruct err as [e|]; cbn [fst snd] in Hin.
  - assert (status = ServiceCheckUnknown ∧ message = "") as [-> ->].
    { repeat (apply elem_of_cons in Hin as [Heq|Hin]; [try done|]).
      - by injection Heq as -> -> -> -> ->.
      - by apply not_elem_of_nil in Hin. }
    repeat split; try done; by intros (? & [=] & _).
  - destruct (OffsetThreshold (instance (cfg (check c))) <? toInt (fabs v))
      eqn:Hexceeds; cbn [fst snd] in Hin.
    + apply Z.ltb_lt in Hexceeds.
      assert (status = ServiceCheckCritical ∧ message ≠ "") as [-> Hmsg].
      { repeat (apply elem_of_cons in Hin as [Heq|Hin]; [try done|]).
        - by injection Heq as -> -> -> -> ->.
        - by apply not_elem_of_nil in Hin. }
      repeat split; try done; eauto.
      intros (v' & [= <-] & Hle). lia.
    + apply Z.ltb_ge in Hexceeds.
      assert (status = ServiceCheckOK ∧ message = "") as [-> ->].
      { repeat (apply elem_of_cons in Hin as [Heq|Hin]; [try done|]).
        - by injection Heq as -> -> -> -> ->.
        - by apply not_elem_of_nil in Hin. }
      repeat split; try done; eauto.
      intros (v' & [= <-] & Hlt). lia.
Qed.

End RunFacts.

Section ConfigureFacts.

Context {Base : Type}.
Variable unmarshalInstance : list Byte.byte → result ntpInstanceConfig.
Variable unmarshalInitConf : list Byte.byte → result ntpInitConfig.
Variable env : CloudEnv.
Variable BuildID : Base → list Byte.byte → list Byte.byte → Base.
Variable CommonConfigure : Base → list Byte.byte → string → Base * option error.
Variable getLocalDefinedNTPServers : result (slice string).

Let parse := net.parse unmarshalInstance unmarshalInitConf env.
Let Configure :=
  net.Configure unmarshalInstance unmarshalInitConf env BuildID CommonConfigure
                getLocalDefinedNTPServers.

(** X21: When a document does not decode, or the local servers are asked for
    and cannot be listed, [Configure] returns that error and leaves the
    check as it was, its former configuration and its base included:
    the instance [parse] had already stored is dropped with the fresh
    configuration. *)
Theorem Configure_parse_error (c : ConfiguredCheck Base) data initConfig source e :
  (unmarshalInstance data = Err e ∨
   (∃ inst, unmarshalInstance data = Ok inst ∧
            unmarshalInitConf initConfig = Err e) ∨
   (∃ inst ic, unmarshalInstance data = Ok inst ∧
               unmarshalInitConf initConfig = Ok ic ∧
               UseLocalDefinedServers inst = true ∧
               getLocalDefinedNTPServers = Err e)) →
  Configure c data initConfig source = (c, Some e).
Proof.
  unfold Configure, net.Configure, net.parse.
  intros [Hinst|[(inst & Hinst & Hic)|(inst & ic & Hinst & Hic & Hlocal & Hcall)]];
    rewrite Hinst; [done|rewrite Hic; done|].
  rewrite Hic. cbn [instance]. by rewrite Hlocal, Hcall.
Qed.

(** X22: Once the configuration parses, the check holds it whether or not
    [CommonConfigure] fails afterwards: the failure counter is kept, no
    numeric field is zero, so that the hosts are queried on a port and
    with a protocol version that are set, and the host list is not
    nil. *)
Theorem Configure_installs (c : ConfiguredCheck Base) data initConfig source cfg' :
  parse newConfig data initConfig getLocalDefinedNTPServers = (cfg', None) →
  let c' := (Configure c data initConfig source).1 in
  cfg (ntp c') = cfg' ∧
  errCount (ntp c') = errCount (ntp c) ∧
  QPort (queryOptions (ntp c')) ≠ 0 ∧
  QVersion (queryOptions (ntp c')) ≠ 0 ∧
  Hosts (instance (cfg (ntp c'))) ≠ None ∧
  (Configure c data initConfig source).2 =
    (CommonConfigure (BuildID (CheckBase c) data initConfig) data source).2.
Proof.
  intros Hparse c'. subst c'. unfold Configure, net.Configure.
  destruct (parse_success_inv _ _ _ _ _ _ _ _ Hparse)
    as (inst & ic & servers & Hinst & Hic & Hcall).
  destruct (parse_success unmarshalInstance unmarshalInitConf env newConfig
              data initConfig getLocalDefinedNTPServers _ _ _ Hinst Hic Hcall)
    as (cfg'' & Hparse' & _ & _ & _ & HP & HV & _ & _ & HH).
  fold parse in Hparse'. rewrite Hparse in Hparse'. injection Hparse' as <-.
  unfold parse in Hparse. rewrite Hparse.
  destruct (CommonConfigure _ _ _) as [base err].
  cbn [fst snd ntp cfg errCount queryOptions QPort QVersion].
  rewrite HP, HV, HH.
  repeat split; try (by apply default_nonzero). apply hosts_not_nil.
Qed.

End ConfigureFacts.

Section ConfigureThenQuery.

Context {F : Type} `{Float64 F}.
Context {World Response Base : Type}.
Variable ntpQuery : World → string → QueryOptions → World * result Response.
Variable Validate : Response → option error.
Variable ClockOffsetSeconds : Response → F.
Variable unmarshalInstance : list Byte.byte → result ntpInstanceConfig.
Variable unmarshalInitConf : list Byte.byte → result ntpInitConfig.
Variable env : CloudEnv.
Variable BuildID : Base → list Byte.byte → list Byte.byte → Base.
Variable CommonConfigure : Base → list Byte.byte → string → Base * option error.
Variable getLocalDefinedNTPServers : result (slice string).

Let queryOffset := net.queryOffset ntpQuery Validate ClockOffsetSeconds.
Let Configure :=
  net.Configure unmarshalInstance unmarshalInitConf env BuildID CommonConfigure
                getLocalDefinedNTPServers.


End ConfigureThenQuery.

(* ================================================================== *)
(** * Further sample runs *)
(* ================================================================== *)


(** Nothing is set: every default applies. *)
Lemma parse_normalises_witness :
  let c' := mkConfig (mkInstance 60 "" googleNTPHosts 123 5 3 false) mkInitConfig in
  parse (sampleUnmarshal (hostsOnly "" None) (hostsOnly "" None))
        sampleUnmarshalInit noCloud newConfig [] [] (Ok None) = (c', None) ∧
  Port (instance c') ≠ 0 ∧ Version (instance c') ≠ 0 ∧
  Timeout (instance c') ≠ 0 ∧ OffsetThreshold (instance c') ≠ 0 ∧
  Hosts (instance c') ≠ None.
Proof.
  intros c'. split; [reflexivity|].
  exact (parse_normalises (sampleUnmarshal (hostsOnly "" None) (hostsOnly "" None))
           sampleUnmarshalInit noCloud newConfig [] [] (Ok None) c' eq_refl).
Defined.

(** Local servers beside a configured host. *)
Lemma parse_local_servers_override_witness :
  let inst := mkInstance 0 "a" (Some ["b"]) 0 0 0 true in
  let servers := Some ["10.0.0.1"; "10.0.0.2"] in
  sampleUnmarshal inst inst [] = Ok inst ∧
  sampleUnmarshalInit [] = Ok mkInitConfig ∧
  UseLocalDefinedServers inst = true ∧
  0 < len servers ∧
  ∃ c', parse (sampleUnmarshal inst inst) sampleUnmarshalInit noCloud newConfig
              [] [] (Ok servers) = (c', None) ∧
        Hosts (instance c') = servers.
Proof.
  intros inst servers.
  split; [reflexivity|]. split; [reflexivity|]. split; [reflexivity|].
  split; [reflexivity|].
  exact (parse_local_servers_override (sampleUnmarshal inst inst)
           sampleUnmarshalInit noCloud newConfig [] [] inst mkInitConfig servers
           eq_refl eq_refl eq_refl eq_refl).
Defined.

(** [hosts: []] and nothing else. *)
Lemma parse_hosts_kept_witness :
  let inst := hostsOnly "" (Some []) in
  sampleUnmarshal inst inst [] = Ok inst ∧
  sampleUnmarshalInit [] = Ok mkInitConfig ∧
  noLocalServers inst (Ok None) ∧
  Host inst = "" ∧
  Hosts inst = Some [] ∧
  ∃ c', parse (sampleUnmarshal inst inst) sampleUnmarshalInit noCloud newConfig
              [] [] (Ok None) = (c', None) ∧
        Hosts (instance c') = Some [].
Proof.
  intros inst.
  assert (noLocalServers inst (Ok None)) as Hlocal by (by left).
  split; [reflexivity|]. split; [reflexivity|]. split; [exact Hlocal|].
  split; [reflexivity|]. split; [reflexivity|].
  exact (parse_hosts_kept (sampleUnmarshal inst inst) sampleUnmarshalInit
           noCloud newConfig [] [] (Ok None) inst mkInitConfig []
           eq_refl eq_refl Hlocal eq_refl eq_refl).
Defined.

Lemma parse_empty_hosts_witness :
  let inst := hostsOnly "" (Some []) in
  let c' := mkConfig (mkInstance 60 "" (Some []) 123 5 3 false) mkInitConfig in
  parse (sampleUnmarshal inst inst) sampleUnmarshalInit noCloud newConfig
        [] [] (Ok None) = (c', None) ∧
  Hosts (instance c') = Some [] ∧
  ∃ inst', sampleUnmarshal inst inst [] = Ok inst' ∧
           Host inst' = "" ∧ Hosts inst' = Some [].
Proof.
  intros inst c'. split; [reflexivity|]. split; [reflexivity|].
  exact (parse_empty_hosts (sampleUnmarshal inst inst) sampleUnmarshalInit
           noCloud newConfig [] [] (Ok None) c' eq_refl eq_refl).
Defined.

(** The result of [host: a] with [hosts: [b, a, b, c]], parsed again. *)
Lemma parse_idempotent_witness :
  let inst := hostsOnly "a" (Some ["b"; "a"; "b"; "c"]) in
  let inst' := mkInstance 60 "a" (Some ["a"; "b"; "b"; "c"]) 123 5 3 false in
  let c' := mkConfig inst' mkInitConfig in
  let unmarshalInstance := sampleUnmarshal inst inst' in
  parse unmarshalInstance sampleUnmarshalInit noCloud newConfig [] [] (Ok None) =
    (c', None) ∧
  unmarshalInstance [Byte.x01] = Ok (instance c') ∧
  sampleUnmarshalInit [] = Ok mkInitConfig ∧
  parse unmarshalInstance sampleUnmarshalInit noCloud newConfig
        [Byte.x01] [] (Ok None) = (c', None).
Proof.
  intros inst inst' c' unmarshalInstance.
  split; [reflexivity|]. split; [reflexivity|]. split; [reflexivity|].
  exact (parse_idempotent unmarshalInstance sampleUnmarshalInit noCloud
           newConfig [] [] (Ok None) c' newConfig [Byte.x01] [] mkInitConfig
           eq_refl eq_refl eq_refl).
Defined.

Lemma queryOffset_no_hosts_witness :
  let c := sampleCheck [] in
  elems (Hosts (instance (cfg c))) = [] ∧
  queryOffset (H:=Float64_Z) sampleQuery sampleValidate id () c =
    ((), c, Returns 0 (Some "Failed to get clock offset from any ntp host")).
Proof.
  intros c. split; [reflexivity|].
  exact (queryOffset_no_hosts (H:=Float64_Z) sampleQuery sampleValidate id
           () c eq_refl).
Defined.

Lemma queryOffset_errCount_bounds_witness :
  let c := sampleCheck ["down"; "a"; "down"] in
  0 ≤ errCount c ≤ 10 ∧
  0 ≤ errCount (queryOffset (H:=Float64_Z) sampleQuery sampleValidate id () c).1.2
    ≤ 10.
Proof.
  intros c. assert (0 ≤ errCount c ≤ 10) as Hrange by (cbn; lia).
  split; [exact Hrange|].
  exact (queryOffset_errCount_bounds (H:=Float64_Z) sampleQuery sampleValidate
           id () c Hrange).
Defined.

(** Twelve failed queries from a counter at zero leave it at one. *)
Lemma queryOffset_errCount_failures_witness :
  let c := sampleCheck (replicate 12 "down") in
  0 ≤ errCount c ≤ 10 ∧
  Forall (λ r, ∃ e, r = Err e)
    (answers sampleQuery (queryOptions c) (elems (Hosts (instance (cfg c)))) ()) ∧
  errCount (queryOffset (H:=Float64_Z) sampleQuery sampleValidate id () c).1.2 = 1.
Proof.
  intros c. assert (0 ≤ errCount c ≤ 10) as Hrange by (cbn; lia).
  assert (Forall (λ r : result Z, ∃ e, r = Err e)
            (answers sampleQuery (queryOptions c)
                     (elems (Hosts (instance (cfg c)))) ())) as Hfail
    by (cbn; forall_elements; by eexists).
  split; [exact Hrange|]. split; [exact Hfail|].
  exact (queryOffset_errCount_failures (H:=Float64_Z) sampleQuery sampleValidate
           id () c Hrange Hfail).
Defined.

Lemma queryOffset_errCount_reset_witness :
  let c := mkNTPCheck (cfg (sampleCheck ["down"; "down"; "a"])) 7 in
  answers sampleQuery (queryOptions c) (elems (Hosts (instance (cfg c)))) () =
    [Err "i/o timeout"; Err "i/o timeout"] ++ [Ok 1] ∧
  errCount (queryOffset (H:=Float64_Z) sampleQuery sampleValidate id () c).1.2 = 0.
Proof.
  intros c. split; [reflexivity|].
  exact (queryOffset_errCount_reset (H:=Float64_Z) sampleQuery sampleValidate
           id () c [Err "i/o timeout"; Err "i/o timeout"] 1 eq_refl).
Defined.

Lemma queryOffset_single_witness :
  let c := sampleCheck ["down"; "bb"] in
  collected sampleValidate id
    (answers sampleQuery (queryOptions c) (elems (Hosts (instance (cfg c)))) ()) =
    [2] ∧
  (queryOffset (H:=Float64_Z) sampleQuery sampleValidate id () c).2 =
    Returns 2 None.
Proof.
  intros c. split; [reflexivity|].
  exact (queryOffset_single (H:=Float64_Z) sampleQuery sampleValidate id
           () c 2 eq_refl).
Defined.

(** The offsets 1, 3 and 2: one offset on each side of the median. *)
Lemma queryOffset_median_splits_witness :
  let c := sampleCheck ["a"; "down"; "ccc"; "bb"] in
  let rs :=
    answers sampleQuery (queryOptions c) (elems (Hosts (instance (cfg c)))) () in
  let out := (queryOffset (H:=Float64_Z) sampleQuery sampleValidate id () c).2 in
  (∀ x y : Z, float64Less (H:=Float64_Z) x y = true →
              float64Less (H:=Float64_Z) y x = false) ∧
  (∀ x y z : Z, notAfter (H:=Float64_Z) x y → notAfter (H:=Float64_Z) y z →
                notAfter (H:=Float64_Z) x z) ∧
  collected sampleValidate id rs ≠ [] ∧
  ∃ lower upper,
    length lower = length upper ∧
    ((∃ m, collected sampleValidate id rs ≡ₚ lower ++ m :: upper ∧
           Forall (λ x, notAfter (H:=Float64_Z) x m) lower ∧
           Forall (notAfter (H:=Float64_Z) m) upper ∧
           out = Returns m None) ∨
     (∃ a b, collected sampleValidate id rs ≡ₚ lower ++ a :: b :: upper ∧
             Forall (λ x, notAfter (H:=Float64_Z) x a) lower ∧
             notAfter (H:=Float64_Z) a b ∧
             Forall (notAfter (H:=Float64_Z) b) upper ∧
             out = Returns (fdiv (Float64:=Float64_Z) (fadd (Float64:=Float64_Z) a b)
                                 (ftwo (Float64:=Float64_Z))) None)).
Proof.
  intros c rs out.
  assert (collected sampleValidate id rs ≠ []) as Hne by done.
  split; [exact Float64_Z_less_asym|]. split; [exact Float64_Z_notAfter_trans|].
  split; [exact Hne|].
  exact (queryOffset_median_splits (H:=Float64_Z) sampleQuery sampleValidate id
           Float64_Z_less_asym Float64_Z_notAfter_trans () c Hne).
Defined.


(** A timeout of five seconds. *)
Lemma queryOptions_timeout_witness :
  let c := sampleCheck [] in
  -9223372036 ≤ Timeout (instance (cfg c)) ≤ 9223372036 ∧
  QTimeout (queryOptions c) = 5 * 1000000000.
Proof.
  intros c.
  assert (-9223372036 ≤ Timeout (instance (cfg c)) ≤ 9223372036) as Hrange
    by (cbn; lia).
  split; [exact Hrange|]. exact (queryOptions_timeout c Hrange).
Defined.

(** An offset of three seconds against a threshold of one. *)
Lemma Run_status_threshold_witness :
  let chk :=
    mkNTPCheck (mkConfig (mkInstance 1 "" (Some ["ccc"]) 123 5 3 false)
                         mkInitConfig) 0 in
  let c := mkRunState chk 0%nat in
  let message :=
    "Offset offset is higher than offset threshold (threshold secs)" in
  ServiceCheck "ntp.in_sync" ServiceCheckCritical "" None message
    ∈ (sampleRun None c).1.2 ∧
  ∃ v, (queryOffset (H:=Float64_Z) sampleQuery sampleValidate id () chk).2 =
         Returns v None ∧
       1 < Z.abs v.
Proof.
  intros chk c message.
  assert (ServiceCheck "ntp.in_sync" ServiceCheckCritical "" None message
            ∈ (sampleRun None c).1.2) as Hin.
  { vm_compute. do 3 apply list_elem_of_further. apply list_elem_of_here. }
  split; [exact Hin|].
  destruct (Run_status_threshold (H:=Float64_Z) sampleQuery sampleValidate id
              Z.abs id (λ _, "offset") (λ _, "threshold") None 1%nat () c
              "ntp.in_sync" ServiceCheckCritical "" None message Hin)
    as (_ & Hcritical & _ & _).
  by apply Hcritical.
Defined.

(** Local servers that cannot be listed. *)
Lemma Configure_parse_error_witness :
  let inst := mkInstance 0 "a" None 0 0 0 true in
  let c := mkConfiguredCheck () (sampleCheck ["b"]) in
  let Configure :=
    Configure (sampleUnmarshal inst inst) sampleUnmarshalInit noCloud
              (λ base _ _, base) (λ base _ _, (base, None))
              (Err "no local servers") in
  (sampleUnmarshal inst inst [] = Err "no local servers" ∨
   (∃ inst', sampleUnmarshal inst inst [] = Ok inst' ∧
             sampleUnmarshalInit [] = Err "no local servers") ∨
   (∃ inst' ic, sampleUnmarshal inst inst [] = Ok inst' ∧
                sampleUnmarshalInit [] = Ok ic ∧
                UseLocalDefinedServers inst' = true ∧
                @Err (slice string) "no local servers" = Err "no local servers")) ∧
  Configure c [] [] "file" = (c, Some "no local servers").
Proof.
  intros inst c Configure.
  assert (sampleUnmarshal inst inst [] = Err "no local servers" ∨
          (∃ inst', sampleUnmarshal inst inst [] = Ok inst' ∧
                    sampleUnmarshalInit [] = Err "no local servers") ∨
          (∃ inst' ic, sampleUnmarshal inst inst [] = Ok inst' ∧
                       sampleUnmarshalInit [] = Ok ic ∧
                       UseLocalDefinedServers inst' = true ∧
                       @Err (slice string) "no local servers" =
                       Err "no local servers")) as Hcause.
  { right. right. by exists inst, mkInitConfig. }
  split; [exact Hcause|].
  exact (Configure_parse_error (sampleUnmarshal inst inst) sampleUnmarshalInit
           noCloud (λ base _ _, base) (λ base _ _, (base, None))
           (Err "no local servers") c [] [] "file" "no local servers" Hcause).
Defined.

(** An empty document over a check that failed four times. *)
Lemma Configure_installs_witness :
  let unmarshalInstance := sampleUnmarshal (hostsOnly "" None) (hostsOnly "" None) in
  let c := mkConfiguredCheck () (mkNTPCheck newConfig 4) in
  let cfg' := mkConfig (mkInstance 60 "" googleNTPHosts 123 5 3 false) mkInitConfig in
  let c' := (sampleConfigure unmarshalInstance c).1 in
  parse unmarshalInstance sampleUnmarshalInit noCloud newConfig [] [] (Ok None) =
    (cfg', None) ∧
  cfg (ntp c') = cfg' ∧
  errCount (ntp c') = 4 ∧
  QPort (queryOptions (ntp c')) ≠ 0 ∧
  QVersion (queryOptions (ntp c')) ≠ 0 ∧
  Hosts (instance (cfg (ntp c'))) ≠ None ∧
  (sampleConfigure unmarshalInstance c).2 = None.
Proof.
  intros unmarshalInstance c cfg' c'. split; [reflexivity|].
  exact (Configure_installs unmarshalInstance sampleUnmarshalInit noCloud
           (λ base _ _, base) (λ base _ _, (base, None)) (Ok None)
           c [] [] "file" cfg' eq_refl).
Defined.

